(** * swc_ephys / spikewrap: the orchestration core, embedded and verified

    The development follows the Python sources:
    - [spikewrap/pipeline/sort.py]   ([run_sorting], [run_sorting_on_all_runs],
      [validate_inputs], [quick_safety_check]);
    - [swc_ephys/pipeline/sort.py], [swc_ephys/pipeline/full_pipeline.py],
      [swc_ephys/utils/slurm.py];
    - [spikewrap/utils/_slurm.py]    ([run_in_slurm]);
    - [swc_ephys/utils/utils.py] and [spikewrap/utils/utils.py]
      ([get_keys_first_char], [get_dict_value_from_step_num],
      [sort_list_of_paths_by_datetime_order],
      [list_of_files_are_in_datetime_order]).

    Python objects that are mutated and shared (dicts) live in a heap of
    dict objects; the process (working directory, derivatives tree, heap and
    the sequence of calls made to external collaborators) is an explicit
    state threaded by a state-and-exception monad. *)

From Stdlib Require Import ZArith Ascii String List Sorted Permutation.
From Stdlib Require Import DecimalString DecimalNat.
From stdpp Require Import base option list gmap strings fin_maps.

Local Open Scope string_scope.

(** ** Python values, exceptions and the process state *)

Module Py.

Definition loc := nat.

(** The values that occur as flags, options and dict entries. *)
Inductive pyval :=
| VNone
| VBool (b : bool)
| VInt (z : Z)
| VStr (s : string)
| VRef (l : loc).

(** [x is False]. *)
Definition is_False (v : pyval) : bool :=
  match v with VBool false => true | _ => false end.

Inductive exn :=
| RuntimeError (msg : string)
| AssertionError (msg : string)
| KeyError (key : string)
| AttributeError (msg : string)
| FileNotFoundError (path : string)
| FileExistsError (path : string)
| IndexError
| ValueError (msg : string)
| SpikeSortingError (output_folder : string).

Inductive result (A : Type) :=
| Ok (a : A)
| Raise (e : exn).
Arguments Ok {A} a.
Arguments Raise {A} e.

(** Calls that leave the process: the console, the sorter runtime, the
    scheduler, the debugger. *)
Inductive event :=
| EvMessage (msg : string)
| EvStartLogging
| EvStopLogging
| EvChdir (path : string)
| EvRunSorter (sorter output_folder : string)
| EvSaveSortingInfo (output_folder : string)
| EvImageSettings (sorter : string)
| EvMoveImage (sorter : string)
| EvSlurmSubmit (func : string) (slurm_batch : pyval)
| EvMkdir (path : string)
| EvExecutor (log_path : string)
| EvExecutorSubmit (func : string) (env_name : pyval) (func_opts : gmap string pyval)
    (job_id : nat)
| EvJobWait (job_id : nat)
| EvClient
| EvSubprocess (command : string)
| EvBreakpoint.

(** A directory of the derivatives tree, as the set of entries in it. *)
Abbreviation folder := (gset string).

Record world := World {
  cwd : string;
  disk : gmap string folder;
  heap : gmap loc (gmap string pyval);
  trace : list event
}.

(** Python truthiness, as used by [if x:]. A reference is to a dict of the
    heap [h], which is false when it is empty. *)
Definition truthy (h : gmap loc (gmap string pyval)) (v : pyval) : bool :=
  match v with
  | VNone => false
  | VBool b => b
  | VInt z => negb (Z.eqb z 0)
  | VStr s => negb (String.eqb s "")
  | VRef l =>
      match h !! l with
      | Some d => negb (bool_decide (d = ∅))
      | None => true
      end
  end.

(** Exceptions in code without effects. *)
Definition rbind {A B} (r : result A) (k : A -> result B) : result B :=
  match r with
  | Ok a => k a
  | Raise e => Raise e
  end.

(** A list comprehension whose element expression may raise. *)
Fixpoint comprehension {A B} (f : A -> result B) (l : list A) : result (list B) :=
  match l with
  | [] => Ok []
  | x :: l' =>
      rbind (f x) (fun y => rbind (comprehension f l') (fun ys => Ok (y :: ys)))
  end.

(** A list comprehension with an [if] that may raise. *)
Fixpoint comprehension_if {A} (f : A -> result bool) (l : list A) : result (list A) :=
  match l with
  | [] => Ok []
  | x :: l' =>
      rbind (f x) (fun b =>
      rbind (comprehension_if f l') (fun xs => Ok (if b then x :: xs else xs)))
  end.

Definition M (A : Type) : Type := world -> result A * world.

Definition ret {A} (a : A) : M A := fun w => (Ok a, w).

Definition bind {A B} (m : M A) (k : A -> M B) : M B :=
  fun w =>
    match m w with
    | (Ok a, w') => k a w'
    | (Raise e, w') => (Raise e, w')
    end.

Definition raise {A} (e : exn) : M A := fun w => (Raise e, w).

Declare Scope py_scope.
Delimit Scope py_scope with py.
Notation "'let*' x ':=' m 'in' k" := (bind m (fun x => k))
  (at level 10, x name, m at level 100, k at level 200) : py_scope.
Notation "m ';;' k" := (bind m (fun _ => k))
  (at level 100, k at level 200, right associativity) : py_scope.
Local Open Scope py_scope.

Notation "'let?' x ':=' r 'in' k" := (rbind r (fun x => k))
  (at level 10, x name, r at level 100, k at level 200) : py_scope.

Definition lift {A} (r : result A) : M A := fun w => (r, w).

Definition emit (e : event) : M unit :=
  fun w => (Ok tt, World (cwd w) (disk w) (heap w) (trace w ++ [e])%list).

Definition assert_ (b : bool) (msg : string) : M unit :=
  if b then ret tt else raise (AssertionError msg).

(** The statement [if x: ... else: ...]. *)
Definition if_ {A} (x : pyval) (then_ else_ : M A) : M A :=
  fun w => if truthy (heap w) x then then_ w else else_ w.

(** [utils.message_user]. *)
Definition message_user (msg : string) : M unit := emit (EvMessage msg).

(** [os.chdir]. *)
Definition chdir (path : string) : M unit :=
  fun w => (Ok tt, World path (disk w) (heap w) (trace w ++ [EvChdir path])%list).

(** [Path.is_dir]. *)
Definition is_dir (path : string) : M bool :=
  fun w => (Ok (bool_decide (path ∈ dom (disk w))), w).

(** A dict display [{}]: a new object. *)
Definition new_dict : M loc :=
  fun w =>
    let l := fresh (dom (heap w)) in
    (Ok l, World (cwd w) (disk w) (<[l := ∅]> (heap w)) (trace w)).

Definition read_dict (l : loc) : M (gmap string pyval) :=
  fun w =>
    match heap w !! l with
    | Some d => (Ok d, w)
    | None => (Raise (AttributeError "not a dict"), w)
    end.

(** [d.update({key: v})] on the object at [l]. *)
Definition dict_update (l : loc) (key : string) (v : pyval) : M unit :=
  fun w =>
    match heap w !! l with
    | Some d =>
        (Ok tt, World (cwd w) (disk w) (<[l := <[key := v]> d]> (heap w)) (trace w))
    | None => (Raise (AttributeError "update"), w)
    end.

(** A [for] loop over a list; an exception leaves the loop. *)
Fixpoint for_each {A} (body : A -> M unit) (l : list A) : M unit :=
  match l with
  | [] => ret tt
  | x :: l' => body x ;; for_each body l'
  end.

(** The entry a completed sorter call leaves in its output folder. *)
Definition sorter_output : string := "sorter_output".

(** The sorter runtime [ss.run_sorter(sorter, recording, output_folder=...,
    remove_existing_folder=..., ...)], an external collaborator. What is
    taken from its contract: a folder already at [output_folder] is deleted
    first when [remove_existing_folder] is set and refused otherwise; the call
    then either completes, leaving its output in the folder, or raises,
    leaving the folder without it. [ok] tells which. The disk keeps an output
    folder under its path with the entries directly in it; what the runtime
    puts below [sorter_output] is not kept, and no claim is made about a
    path that lies under an output folder. *)
Definition run_sorter (ok : string -> bool) (sorter output_folder : string)
    (remove_existing_folder : bool) : M unit :=
  fun w =>
    let tr := (trace w ++ [EvRunSorter sorter output_folder])%list in
    if negb remove_existing_folder && bool_decide (output_folder ∈ dom (disk w)) then
      (Raise (FileExistsError output_folder), World (cwd w) (disk w) (heap w) tr)
    else
      let removed := delete output_folder (disk w) in
      if ok output_folder then
        (Ok tt, World (cwd w) (<[output_folder := {[sorter_output]}]> removed) (heap w) tr)
      else
        (Raise (SpikeSortingError output_folder),
         World (cwd w) (<[output_folder := ∅]> removed) (heap w) tr).

(** [int(s)] on a string of decimal digits; signs, blanks and underscores,
    which [int] also reads, do not occur in step keys and raise here. *)
Definition py_int (s : string) : result nat :=
  match s with
  | EmptyString => Raise (ValueError s)
  | _ =>
      match NilEmpty.uint_of_string s with
      | Some d => Ok (Nat.of_uint d)
      | None => Raise (ValueError s)
      end
  end.

(** [str(n)] for [n >= 0]. *)
Definition py_str (n : nat) : string := NilEmpty.string_of_uint (Nat.to_uint n).

(** [np.max] of a list of integers. *)
Definition np_max (l : list nat) : result nat :=
  match l with
  | [] => Raise (ValueError "zero-size array")
  | x :: l' => Ok (foldr Nat.max x l')
  end.

(** [key[0]]. *)
Definition first_char (key : string) : result string :=
  match key with
  | EmptyString => Raise IndexError
  | String c _ => Ok (String c EmptyString)
  end.

(** [key.split("-")[0]]: the text before the first dash. *)
Fixpoint split_head (key : string) : string :=
  match key with
  | EmptyString => EmptyString
  | String c rest =>
      if Ascii.eqb c "-"%char then EmptyString else String c (split_head rest)
  end.

(** [d[key]] on a dict kept as its items in insertion order. *)
Fixpoint getitem {V} (data : list (string * V)) (key : string) : result V :=
  match data with
  | [] => Raise (KeyError key)
  | (k, v) :: data' => if String.eqb k key then Ok v else getitem data' key
  end.

Definition keys {V} (data : list (string * V)) : list string := map fst data.

(** [needle in haystack] on strings. *)
Fixpoint str_contains (needle haystack : string) : bool :=
  String.prefix needle haystack
  || match haystack with
     | EmptyString => false
     | String _ rest => str_contains needle rest
     end.

End Py.


Import Py.
Local Open Scope py_scope.

(** ** The package swc_ephys *)

Module swc_ephys.

(** *** swc_ephys/utils/utils.py *)
Module utils.

(** [get_keys_first_char(data, as_int=False)]. *)
Definition get_keys_first_char {V} (data : list (string * V)) : result (list string) :=
  comprehension first_char (keys data).

(** [get_keys_first_char(data, as_int=True)]. *)
Definition get_keys_first_char_as_int {V} (data : list (string * V)) : result (list nat) :=
  comprehension (fun key => let? c := first_char key in py_int c) (keys data).

Definition get_dict_value_from_step_num {V} (data : list (string * V)) (step_num : string)
  : result (V * string) :=
  let? step_num :=
    if String.eqb step_num "last" then
      let? pp_key_nums := get_keys_first_char_as_int data in
      let? m := np_max pp_key_nums in
      let step_num := py_str m in
      let? n := py_int step_num in
      if Z.eqb (Z.of_nat n) (Z.of_nat (length (keys data)) - 1)
      then Ok step_num
      else Raise (AssertionError "the last key has been taken incorrectly")
    else Ok step_num in
  let? select_step_pp_key :=
    comprehension_if
      (fun key => let? c := first_char key in Ok (String.eqb c step_num))
      (keys data) in
  if Nat.eqb (length select_step_pp_key) 1 then
    match select_step_pp_key with
    | pp_key :: _ => let? v := getitem data pp_key in Ok (v, pp_key)
    | [] => Raise IndexError
    end
  else Raise (AssertionError "pp_key must always have unique first char").

(** Python's [list.sort(key=...)] is stable: an insertion sort that keeps
    equal keys in their order. *)
Fixpoint insert_by {A} (key : A -> Z) (x : A) (l : list A) : list A :=
  match l with
  | [] => [x]
  | y :: l' => if Z.leb (key x) (key y) then x :: y :: l' else y :: insert_by key x l'
  end.

Fixpoint sort_by {A} (key : A -> Z) (l : list A) : list A :=
  match l with
  | [] => []
  | x :: l' => insert_by key x (sort_by key l')
  end.

(** [sort_list_of_paths_by_datetime_order]; [getctime] is [os.path.getctime]
    on the file system of the call. *)
Definition sort_list_of_paths_by_datetime_order (getctime : string -> Z)
    (list_of_paths : list string) : list string :=
  sort_by getctime list_of_paths.

(** [list_of_files_are_in_datetime_order]. *)
Definition list_of_files_are_in_datetime_order (getctime getmtime : string -> Z)
    (list_of_paths : list string) (creation_or_modification : string) : result bool :=
  if bool_decide (creation_or_modification ∈ ["creation"; "modification"]) then
    let filter :=
      if String.eqb creation_or_modification "creation" then getmtime else getctime in
    let list_of_paths_by_time := sort_by filter list_of_paths in
    Ok (bool_decide (list_of_paths = list_of_paths_by_time))
  else Raise (AssertionError "creation_or_modification must be 'creation' or 'modification.").

End utils.

(** *** swc_ephys/utils/slurm.py *)
Module slurm.

(** [run_full_pipeline] with its keyword arguments: the function it submits is the one the
    name [run_full_pipeline] is bound to in this module, that is, itself, with
    the keyword arguments it received. *)
Definition run_full_pipeline (slurm_batch : pyval) : M unit :=
  emit EvBreakpoint ;;
  emit EvClient ;;
  emit (EvSlurmSubmit "swc_ephys.utils.slurm.run_full_pipeline" slurm_batch).

End slurm.

(** *** swc_ephys/pipeline/full_pipeline.py *)
Module full_pipeline.

Section FullPipeline.
(** [slurm.run_full_pipeline_slurm], which [swc_ephys/utils/slurm.py] does not
    define, is taken abstractly: what the attribute lookup and the call do
    with the local variables, [slurm_batch] among them. *)
Variable run_full_pipeline_slurm : pyval -> M unit.

(** [run_full_pipeline]. [stages] is what follows the assertion:
    [get_configs], [load_spikeglx_data], [preprocess], [run_sorting] and
    [quality_check]. The batch branch hands a deep copy of the local
    variables to [slurm.run_full_pipeline_slurm] and returns. *)
Definition run_full_pipeline (stages : M unit) (slurm_batch : pyval) : M unit :=
  if_ slurm_batch
    (run_full_pipeline_slurm slurm_batch)
    (assert_ (is_False slurm_batch) "SLURM run has slurm_batch set True" ;;
     stages).

End FullPipeline.
End full_pipeline.

(** *** swc_ephys/pipeline/sort.py *)
Module sort.

Record recording := { get_num_segments : nat }.

(** What [run_sorting] reads from a [Data] object; the class, of
    [pipeline/data_class.py], is taken abstractly. *)
Record Data := {
  base_path : string;
  preprocessed_output_path : string;
  preprocessed_binary_data_path : string;
  sorter_base_output_path : string -> string;
  pp_steps : list (string * recording)
}.

Section Sorting.
(** Helpers taken abstractly: [utils.load_data_and_recording],
    [Data.save_all_preprocessed_data] and [utils.check_singularity_install]. *)
Variable load_data_and_recording : string -> M (Data * recording).
Variable save_all_preprocessed_data : Data -> M unit.
Variable check_singularity_install : bool.
Variable ok : string -> bool.
(** [slurm.run_sorting_slurm], which [swc_ephys/utils/slurm.py] does not
    define: what the attribute lookup and the call do with the local
    variables, [slurm_batch] among them. *)
Variable run_sorting_slurm : pyval -> M unit.

Definition get_data_and_recording (data : Data + string)
    (use_existing_preprocessed_file : bool) : M (Data * recording) :=
  match data with
  | inr path =>
      message_user ("Loading binary preprocessed data from " +:+ path) ;;
      load_data_and_recording path
  | inl data =>
      let* exists_ := is_dir (preprocessed_binary_data_path data) in
      if use_existing_preprocessed_file && exists_ then
        message_user ("use_existing_preprocessed_file=True. Loading binary preprocessed data from "
                      +:+ preprocessed_output_path data) ;;
        load_data_and_recording (preprocessed_output_path data)
      else
        message_user ("Saving data class and binary preprocessed data to "
                      +:+ preprocessed_output_path data) ;;
        save_all_preprocessed_data data ;;
        let* last := lift (utils.get_dict_value_from_step_num (pp_steps data) "last") in
        ret (data, fst last)
  end.

Definition supported_sorters : list string := ["kilosort2"; "kilosort2_5"; "kilosort3"].

(** [run_sorting]. [sorter_options] is [None] or a reference to a dict whose
    values are references to dicts of sorter options. *)
Definition run_sorting (data : Data + string) (sorter : string)
    (sorter_options : option loc) (use_existing_preprocessed_file : bool)
    (overwrite_existing_sorter_output : bool) (verbose : bool) (slurm_batch : pyval)
  : M unit :=
  if_ slurm_batch
    (run_sorting_slurm slurm_batch)
    (assert_ (is_False slurm_batch) "SLURM run has slurm_batch set True" ;;
    assert_ (bool_decide (sorter ∈ supported_sorters)) "sorter must be supported" ;;
    assert_ check_singularity_install "Singularity must be installed to run sorting." ;;
    let* empty := new_dict in
    let* sorter_options_dict :=
      match sorter_options with
      | Some o =>
          let* options := read_dict o in
          match options !! sorter with
          | Some v => ret v
          | None => raise (KeyError sorter)
          end
      | None => ret (VRef empty)
      end in
    match sorter_options_dict with
    | VRef l => dict_update l "verbose" (VBool verbose)
    | _ => raise (AttributeError "update")
    end ;;
    let* loaded := get_data_and_recording data use_existing_preprocessed_file in
    let loaded_data := fst loaded in
    chdir (base_path loaded_data) ;;
    message_user ("Starting " +:+ sorter +:+ " sorting...") ;;
    emit (EvImageSettings sorter) ;;
    (if Nat.ltb 1 (get_num_segments (snd loaded))
     then message_user "Conatenating into a single segment."
     else ret tt) ;;
    run_sorter ok sorter (sorter_base_output_path loaded_data sorter)
      overwrite_existing_sorter_output).

End Sorting.
End sort.

End swc_ephys.

(** ** The package spikewrap *)

Module spikewrap.

(** *** spikewrap/utils/utils.py *)
Module utils.

(** [canonical_names]; [filenames[name]] raises [KeyError] on another name. *)
Definition canonical_names (name : string) : result string :=
  if String.eqb name "preprocessed_yaml" then Ok "preprocessing_info.yaml"
  else if String.eqb name "sorting_yaml" then Ok "sorting_info.yaml"
  else Raise (KeyError name).

(** [get_keys_first_char(data, as_int=False)]. *)
Definition get_keys_first_char {V} (data : list (string * V)) : result (list string) :=
  Ok (map split_head (keys data)).

(** [get_keys_first_char(data, as_int=True)]. *)
Definition get_keys_first_char_as_int {V} (data : list (string * V)) : result (list nat) :=
  comprehension (fun key => py_int (split_head key)) (keys data).

(** [get_dict_value_from_step_num]. A failed uniqueness assertion is caught
    by the bare [except] and opens the debugger; the function then goes on. *)
Definition get_dict_value_from_step_num {V} (data : list (string * V)) (step_num : string)
  : M (V * string) :=
  let* step_num :=
    lift (if String.eqb step_num "last" then
            let? pp_key_nums := get_keys_first_char_as_int data in
            let? m := np_max pp_key_nums in
            let step_num := py_str m in
            let? n := py_int step_num in
            if Z.eqb (Z.of_nat n) (Z.of_nat (length (keys data)) - 1)
            then Ok step_num
            else Raise (AssertionError "the last key has been taken incorrectly")
          else Ok step_num) in
  let select_step_pp_key :=
    List.filter (fun key => String.eqb (split_head key) step_num) (keys data) in
  (if Nat.eqb (length select_step_pp_key) 1 then ret tt else emit EvBreakpoint) ;;
  match select_step_pp_key with
  | pp_key :: _ => let* dict_value := lift (getitem data pp_key) in ret (dict_value, pp_key)
  | [] => raise IndexError
  end.

End utils.

(** *** spikewrap/utils/_slurm.py *)
Module _slurm.

(** [d.pop(key)] on a dict held by the caller alone. *)
Definition dict_pop (d : gmap string pyval) (key : string)
  : result (pyval * gmap string pyval) :=
  match d !! key with
  | Some v => Ok (v, delete key d)
  | None => Raise (KeyError key)
  end.

(** A keyword argument of a call, with the default of the signature. *)
Definition kwarg (kwargs : gmap string pyval) (name : string) (dflt : pyval) : pyval :=
  default dflt (kwargs !! name).

(** [wrap_function_with_env_setup], the task a worker runs: it sets up the
    environment and calls [function] with the keyword arguments submitted.
    [function_name] is [function.__name__], [env_name] a string. *)
Definition wrap_function_with_env_setup (function : gmap string pyval -> M unit)
    (function_name : string) (env_name : string) (func_opts : gmap string pyval) : M unit :=
  emit (EvMessage ("running " +:+ function_name +:+ " with SLURM....")) ;;
  emit (EvSubprocess ("module load miniconda; source activate " +:+ env_name
                      +:+ "; module load cuda")) ;;
  function func_opts.

Section Scheduler.
(** The surroundings of a call: whether [sinfo -v] succeeds
    ([is_slurm_installed]), the dict [default_slurm_options()] of
    [configs/hpc.py] returns, the clock read by
    [make_job_log_output_path] and the id of the job the scheduler creates. *)
Variable is_slurm_installed : bool.
Variable default_slurm_options : gmap string pyval.
Variable now : string.
Variable job_id : nat.

Definition make_job_log_output_path (log_base_path : string) : M string :=
  let log_path := log_base_path +:+ "/slurm_logs/" +:+ now in
  emit (EvMkdir log_path) ;;
  ret log_path.

Definition get_executor (log_path : string) (slurm_opts : gmap string pyval) : M unit :=
  emit (EvMessage ("The SLURM batch output logs will be saved to " +:+ log_path)) ;;
  emit (EvExecutor log_path).

Definition send_user_start_message (processing_function log_path : string) (job : nat)
  : M unit :=
  message_user ("SLURM job submitted: the function " +:+ processing_function
                +:+ " submitted to SLURM. Output will be logged to: " +:+ log_path).

(** [run_in_slurm]. [slurm_opts] is a bool or a dict. *)
Definition run_in_slurm (slurm_opts : bool + gmap string pyval) (func_to_run : string)
    (func_opts : gmap string pyval) (log_base_path : string) : M unit :=
  if negb is_slurm_installed then
    raise (RuntimeError "Cannot run with slurm, slurm is not found on this system.")
  else
    let used_slurm_opts := default_slurm_options in
    let used_slurm_opts :=
      match slurm_opts with
      | inr opts => opts ∪ used_slurm_opts
      | inl _ => used_slurm_opts
      end in
    let* popped := lift (dict_pop used_slurm_opts "wait") in
    let should_wait := fst popped in
    let* popped := lift (dict_pop (snd popped) "env_name") in
    let env_name := fst popped in
    let used_slurm_opts := snd popped in
    let* log_path := make_job_log_output_path log_base_path in
    get_executor log_path used_slurm_opts ;;
    emit (EvExecutorSubmit func_to_run env_name func_opts job_id) ;;
    let job := job_id in
    if_ should_wait (emit (EvJobWait job)) (ret tt) ;;
    send_user_start_message func_to_run log_path job.

End Scheduler.
End _slurm.

(** *** spikewrap/pipeline/sort.py *)
Module sort.

(** The name of a run to sort; [None] stands for the concatenated unit. *)
Definition run_name := option string.

(** What the sorting stage reads from a [SortingData] object; the class, of
    [data_classes/sorting.py], is taken abstractly: the attributes
    [base_path] and [sorter] and the results of [sorting_run_names()],
    [get_output_run_name(run_name)] and [get_sorting_path(run_name)]. *)
Record SortingData := {
  base_path : string;
  sorter : string;
  sorting_run_names : list run_name;
  get_output_run_name : run_name -> string;
  get_sorting_path : run_name -> string
}.

Definition sorting_yaml : string := "sorting_info.yaml".

(** Modelled from the spec: [SortingData.save_sorting_info], of
    [data_classes/sorting.py], is missing; by the persisted layout it writes
    [sorting_info.yaml] into the sorter's output folder. Writing into a
    missing folder raises. *)
Definition save_sorting_info (sd : SortingData) (run : run_name) : M unit :=
  fun w =>
    let p := get_sorting_path sd run in
    match disk w !! p with
    | Some f =>
        (Ok tt, World (cwd w) (<[p := {[sorting_yaml]} ∪ f]> (disk w)) (heap w)
                      (trace w ++ [EvSaveSortingInfo p])%list)
    | None => (Raise (FileNotFoundError p), w)
    end.

(** [quick_safety_check]; [output_is_dir] is [output_path.is_dir()]. *)
Definition quick_safety_check (existing_sorting_output : string) (output_is_dir : bool)
  : result unit :=
  if String.eqb existing_sorting_output "fail_if_exists" then Raise (AssertionError "")
  else if String.eqb existing_sorting_output "load_if_exists" then
    if output_is_dir then Raise (AssertionError "") else Ok tt
  else Ok tt.

(** How the body of the loop leaves the [if output_path.is_dir():] block. *)
Inductive flow :=
| FallThrough
| Continue
| Raises (e : exn).

(** Lines 169-184 of [run_sorting_on_all_runs]. *)
Definition existing_output_flow (output_path : string) (output_is_dir : bool)
    (existing_sorting_output : string) : flow :=
  if output_is_dir then
    if String.eqb existing_sorting_output "fail_if_exists" then
      Raises (RuntimeError ("Sorting output already exists at " +:+ output_path
                +:+ " and`existing_sorting_output` is set to 'fail_if_exists'."))
    else if String.eqb existing_sorting_output "load_if_exists" then Continue
    else
      match quick_safety_check existing_sorting_output output_is_dir with
      | Ok _ => FallThrough
      | Raise e => Raises e
      end
  else FallThrough.

(** The body of the loop of [run_sorting_on_all_runs] for one run. *)
Definition sort_run (ok : string -> bool) (sd : SortingData)
    (existing_sorting_output : string) (run : run_name) : M unit :=
  message_user ("Sorting run " +:+ get_output_run_name sd run +:+ "...") ;;
  let output_path := get_sorting_path sd run in
  let* output_is_dir := is_dir output_path in
  match existing_output_flow output_path output_is_dir existing_sorting_output with
  | Raises e => raise e
  | Continue =>
      message_user ("Sorting output already exists at " +:+ output_path
                    +:+ ". Nothing will be done. The existing sorting will be used for "
                    +:+ "postprocessing if running with `run_full_pipeline`")
  | FallThrough =>
      run_sorter ok (sorter sd) output_path true ;;
      save_sorting_info sd run
  end.

Definition run_sorting_on_all_runs (ok : string -> bool) (sd : SortingData)
    (existing_sorting_output : string) : M unit :=
  message_user ("Starting " +:+ sorter sd +:+ " sorting...") ;;
  for_each (sort_run ok sd existing_sorting_output) (sorting_run_names sd).

Definition supported_sorters : list string :=
  ["kilosort2"; "kilosort2_5"; "kilosort3"; "mountainsort5"; "spykingcircus";
   "tridesclous"].

(** [validate_inputs]. [sorter_options] is [None] or a reference to a dict
    whose values are references to dicts of sorter options. *)
Definition validate_inputs (slurm_batch : bool) (sorter : string)
    (sorter_options : option loc) (verbose : bool) : M loc :=
  assert_ (negb slurm_batch) "SLURM run has slurm_batch set True" ;;
  assert_ (bool_decide (sorter ∈ supported_sorters)) "sorter is invalid" ;;
  let* empty := new_dict in
  let* sorter_options_dict :=
    match sorter_options with
    | Some o =>
        let* options := read_dict o in
        match options !! sorter with
        | Some v => ret v
        | None => ret (VRef empty)
        end
    | None => ret (VRef empty)
    end in
  match sorter_options_dict with
  | VRef l => dict_update l "verbose" (VBool verbose) ;; ret l
  | _ => raise (AttributeError "update")
  end.

(** [run_sorting]. The [SortingData] object the function builds from
    [base_path], [sub_name], [run_names], [sorter] and [concat_for_sorting] is
    taken as [sd]; the logger and the image helpers
    ([get_image_run_settings], [move_singularity_image_if_required]) are
    taken abstractly and appear as calls only. The batch branch
    hands a deep copy of the local variables, [slurm_batch] among them, to
    [slurm.run_sorting_slurm]. *)
Definition run_sorting (ok : string -> bool) (sd : SortingData)
    (sorter_options : option loc) (existing_sorting_output : string)
    (verbose slurm_batch : bool) : M unit :=
  emit EvStartLogging ;;
  if slurm_batch then
    emit (EvSlurmSubmit "run_sorting" (VBool slurm_batch))
  else
    let* sorter_options_dict :=
      validate_inputs slurm_batch (sorter sd) sorter_options verbose in
    chdir (base_path sd) ;;
    emit (EvImageSettings (sorter sd)) ;;
    (if str_contains "kilosort" (sorter sd)
     then dict_update sorter_options_dict "delete_tmp_files" (VBool false)
     else ret tt) ;;
    run_sorting_on_all_runs ok sd existing_sorting_output ;;
    emit (EvMoveImage (sorter sd)) ;;
    emit EvStopLogging.

End sort.

End spikewrap.

(** ** The existing-output policy of the spec, next to the code's decision *)

Module policy.
Import spikewrap.sort.

Inductive Mode := FailIfExists | Overwrite | LoadIfExists | SkipIfExists.
Inductive Action := ProceedFresh | LoadExisting | Skip | Fail.

(** The string a mode is written as in [existing_sorting_output]. *)
Definition mode_string (m : Mode) : string :=
  match m with
  | FailIfExists => "fail_if_exists"
  | Overwrite => "overwrite"
  | LoadIfExists => "load_if_exists"
  | SkipIfExists => "skip_if_exists"
  end.

(** The truth table of section 4.2 of the spec, in the spec's words. *)
Definition decide_spec (path_exists : bool) (mode : Mode) : Action :=
  match path_exists, mode with
  | false, _ => ProceedFresh
  | true, FailIfExists => Fail
  | true, Overwrite => ProceedFresh
  | true, LoadIfExists => LoadExisting
  | true, SkipIfExists => Skip
  end.

(** The decision the code takes in [run_sorting_on_all_runs]: an exception is
    [Fail], [continue] keeps the existing output, reaching the sorter call is
    [ProceedFresh]. *)
Definition action_of_flow (f : flow) : Action :=
  match f with
  | FallThrough => ProceedFresh
  | Continue => LoadExisting
  | Raises _ => Fail
  end.

Definition decide (output_path : string) (path_exists : bool) (mode : Mode) : Action :=
  action_of_flow (existing_output_flow output_path path_exists (mode_string mode)).

End policy.

(** ** Observations on traces and worlds *)

Module observe.

Definition is_sorter_call (p : string) (e : event) : bool :=
  match e with
  | EvRunSorter _ q => String.eqb q p
  | _ => false
  end.

Definition is_manifest_write (p : string) (e : event) : bool :=
  match e with
  | EvSaveSortingInfo q => String.eqb q p
  | _ => false
  end.

(** A call to the sorter runtime or a write of a manifest, for any run. *)
Definition is_external (e : event) : bool :=
  match e with
  | EvRunSorter _ _ | EvSaveSortingInfo _ => true
  | _ => false
  end.

Definition is_submission (e : event) : bool :=
  match e with
  | EvSlurmSubmit _ _ | EvExecutorSubmit _ _ _ _ => true
  | _ => false
  end.

Definition is_wait (e : event) : bool :=
  match e with
  | EvJobWait _ => true
  | _ => false
  end.

Definition count (f : event -> bool) (tr : list event) : nat :=
  length (List.filter f tr).

Definition exists_on_disk (p : string) (w : world) : bool :=
  bool_decide (p ∈ dom (disk w)).

(** The message that opens the step of a run. *)
Definition greeting (sd : spikewrap.sort.SortingData) (run : spikewrap.sort.run_name) : event :=
  EvMessage ("Sorting run " +:+ spikewrap.sort.get_output_run_name sd run +:+ "...").

(** [w'] comes from [w] by emitting [evs] and touching nothing but the folder
    at [p]. *)
Definition step_of (p : string) (evs : list event) (w w' : world) : Prop :=
  trace w' = (trace w ++ evs)%list /\ cwd w' = cwd w /\ heap w' = heap w /\
  forall q, q <> p -> disk w' !! q = disk w !! q.

(** A manifest is in a folder only next to a completed sorter output. *)
Definition manifest_has_artifact (d : gmap string folder) : Prop :=
  forall p f, d !! p = Some f ->
    spikewrap.sort.sorting_yaml ∈ f -> sorter_output ∈ f.

(** A call to the sorter runtime, for any run. *)
Definition is_any_sorter_call (e : event) : bool :=
  match e with
  | EvRunSorter _ _ => true
  | _ => false
  end.

Definition is_chdir (e : event) : bool :=
  match e with
  | EvChdir _ => true
  | _ => false
  end.

(** A computation that never changes the working directory. *)
Definition quiet {A} (m : M A) : Prop :=
  forall w, exists evs,
    trace (snd (m w)) = (trace w ++ evs)%list /\
    count is_chdir evs = 0 /\
    cwd (snd (m w)) = cwd w.

(** A computation that never raises [e]. *)
Definition never_raises {A} (e : exn) (m : M A) : Prop :=
  forall w, fst (m w) <> Raise e.

(** The options in force in [run_in_slurm]: the defaults, overridden by the
    entries of [slurm_opts] when that is a dict. *)
Definition effective_slurm_opts (default_slurm_options : gmap string pyval)
    (slurm_opts : bool + gmap string pyval) : gmap string pyval :=
  match slurm_opts with
  | inr opts => opts ∪ default_slurm_options
  | inl _ => default_slurm_options
  end.

(** A list in ascending order of [key]. *)
Definition ascending {A} (key : A -> Z) (l : list A) : Prop :=
  Sorted (fun a b => (key a <= key b)%Z) l.

(** The key of the artifact of step [n]. *)
Definition step_key (n : nat) (name : string) : string :=
  py_str n +:+ "-" +:+ name.

(** The dict of a run's artifacts, from (step number, step name, recording). *)
Definition data_of {V} (items : list (nat * string * V)) : list (string * V) :=
  map (fun item => (step_key (fst (fst item)) (snd (fst item)), snd item)) items.

(** The message of the re-entrancy assertion. *)
Definition guard_error : exn := AssertionError "SLURM run has slurm_batch set True".

(** A write of a manifest, for any run. *)
Definition is_any_manifest_write (e : event) : bool :=
  match e with
  | EvSaveSortingInfo _ => true
  | _ => false
  end.

(** What carrying out an action of the policy on the folder at [p] looks like
    from outside: [out] is the outcome of the step started in [w]. Proceeding
    fresh calls the sorter once and leaves at [p] what that call and the
    manifest write put there, nothing of what was there before. Loading,
    skipping and failing call nothing and leave the disk as it was. *)
Definition performs (a : policy.Action) (ok : string -> bool) (p : string) (w : world)
    (out : result unit * world) : Prop :=
  exists evs,
    trace (snd out) = (trace w ++ evs)%list /\
    match a with
    | policy.ProceedFresh =>
        count (is_sorter_call p) evs = 1 /\
        disk (snd out) =
          <[p := if ok p then {[spikewrap.sort.sorting_yaml; sorter_output]} else ∅]> (disk w)
    | policy.LoadExisting | policy.Skip =>
        fst out = Ok tt /\ count is_external evs = 0 /\ disk (snd out) = disk w
    | policy.Fail =>
        (exists e, fst out = Raise e) /\ count is_external evs = 0 /\ disk (snd out) = disk w
    end.

End observe.

(** ** Concrete inputs *)

Module examples.
Import spikewrap.sort.

Definition sorting_path (run : run_name) : string :=
  "/data/derivatives/sub-1/ses-1/" +:+ default "concat" run +:+ "/kilosort2_5-sorting".

Definition sd0 : SortingData := {|
  base_path := "/data";
  sorter := "kilosort2_5";
  sorting_run_names := [Some "r1"; Some "r2"];
  get_output_run_name := fun run => default "concat" run;
  get_sorting_path := sorting_path
|}.

(** A process started in [/home/user]; the folder of [r1] is there, with a
    file the user added to it. *)
Definition w0 : world :=
  World "/home/user" {[ sorting_path (Some "r1") := {["sorter_output"; "user_notes.txt"]} ]} ∅ [].

(** The same process with an empty derivatives tree. *)
Definition w_empty : world := World "/home/user" ∅ ∅ [].

Definition always (b : bool) : string -> bool := fun _ => b.

(** Two folders: [a] was created before [b] and modified after it. *)
Definition getctime (path : string) : Z := if String.eqb path "a" then 1 else 2.
Definition getmtime (path : string) : Z := if String.eqb path "a" then 2 else 1.

(** The artifacts of a run with eleven preprocessing steps, 0 to 10. *)
Definition eleven_steps : list (string * nat) :=
  [("0-raw", 0); ("1-raw-a", 1); ("2-raw-a-b", 2); ("3-raw-a-b-c", 3);
   ("4-raw-a-b-c-d", 4); ("5-raw-a-b-c-d-e", 5); ("6-raw-a-b-c-d-e-f", 6);
   ("7-raw-a-b-c-d-e-f-g", 7); ("8-raw-a-b-c-d-e-f-g-h", 8);
   ("9-raw-a-b-c-d-e-f-g-h-i", 9); ("10-raw-a-b-c-d-e-f-g-h-i-j", 10)].

(** Step 0 twice and no step 1. *)
Definition duplicate_and_gap : list (string * nat) :=
  [("0-raw", 0); ("0-other", 1); ("2-raw-a-b", 2)].

(** Step 2 twice and no step 1. *)
Definition duplicate_last : list (string * nat) :=
  [("0-raw", 0); ("2-raw-a", 1); ("2-raw-b", 2)].

(** Defaults in the shape of [default_slurm_options()]. *)
Definition slurm_defaults : gmap string pyval :=
  <["wait" := VBool false]> (<["env_name" := VStr "spikewrap"]>
    (<["mem_gb" := VInt 40]> ∅)).

(** A heap where the caller holds, at 0, the dict of options by sorter, whose
    entry for kilosort2_5 is the dict at 1. *)
Definition w_options : world :=
  World "/home/user" ∅
    (<[0 := {[ "kilosort2_5" := VRef 1 ]}]> (<[1 := {[ "car" := VBool true ]}]> ∅)) [].

End examples.

(** ** More observations *)

Module observe_more.
Import observe.

Definition is_start_logging (e : event) : bool :=
  match e with
  | EvStartLogging => true
  | _ => false
  end.

Definition is_stop_logging (e : event) : bool :=
  match e with
  | EvStopLogging => true
  | _ => false
  end.

(** The calls the sorting loop makes. *)
Definition is_loop_event (e : event) : bool :=
  match e with
  | EvMessage _ | EvRunSorter _ _ | EvSaveSortingInfo _ => true
  | _ => false
  end.

(** What the caller of a function that ends without a [return] statement
    receives. *)
Definition returned (r : result unit) : result pyval :=
  match r with
  | Ok _ => Ok VNone
  | Raise e => Raise e
  end.

(** The call hands something to its caller: a value other than [None]. *)
Definition yields_handle (r : result unit) : Prop :=
  exists v, returned r = Ok v /\ v <> VNone.

(** [q] is the folder at [root] or lies under it. *)
Definition lies_under (root q : string) : bool :=
  String.eqb q root || String.prefix (root +:+ "/") q.

(** A computation that neither changes the working directory nor calls the
    sorter. *)
Definition calm {A} (m : M A) : Prop :=
  forall w, exists evs,
    trace (snd (m w)) = (trace w ++ evs)%list /\
    count is_chdir evs = 0 /\ count is_any_sorter_call evs = 0 /\
    cwd (snd (m w)) = cwd w.

(** A computation that touches the heap alone. *)
Definition heap_only {A} (m : M A) : Prop :=
  forall w,
    cwd (snd (m w)) = cwd w /\ disk (snd (m w)) = disk w /\ trace (snd (m w)) = trace w.

(** Where a call of [m] started in [w] leaves the working directory. Either
    it makes no [chdir] and no sorter call and the directory is as it was, or
    [locate], run in the state of [w] but for the heap, returned [loaded], the
    call made one [chdir], to [target loaded], and one sorter call, and the
    directory is [target loaded]. *)
Definition settles_cwd {A L} (locate : M L) (target : L -> string) (m : M A) (w : world)
  : Prop :=
  exists evs,
    trace (snd (m w)) = (trace w ++ evs)%list /\
    ((count is_chdir evs = 0 /\ count is_any_sorter_call evs = 0 /\
      cwd (snd (m w)) = cwd w) \/
     (exists w1 loaded w2,
        cwd w1 = cwd w /\ disk w1 = disk w /\ trace w1 = trace w /\
        locate w1 = (Ok loaded, w2) /\
        count is_chdir evs = 1 /\ count is_any_sorter_call evs = 1 /\
        EvChdir (target loaded) ∈ evs /\
        cwd (snd (m w)) = target loaded)).

End observe_more.

(** ** More of the utilities *)

Module utils_more.

(** A value of the preprocessing dict [pp_steps]: a tuple or a list of
    entries. *)
Inductive seq_value (E : Type) :=
| PyTuple (entries : list E)
| PyList (entries : list E).
Arguments PyTuple {E} entries.
Arguments PyList {E} entries.

Definition entries {E} (v : seq_value E) : list E :=
  match v with
  | PyTuple l => l
  | PyList l => l
  end.

(** [tuple(v)] and [list(v)]. *)
Definition py_tuple {E} (v : seq_value E) : seq_value E := PyTuple (entries v).
Definition py_list {E} (v : seq_value E) : seq_value E := PyList (entries v).

(** [d[key] = v] on a dict kept as its items in insertion order: a key that
    is there keeps its place, a new key goes last. *)
Fixpoint setitem {V} (d : list (string * V)) (key : string) (v : V) : list (string * V) :=
  match d with
  | [] => [(key, v)]
  | (k, x) :: d' =>
      if String.eqb k key then (k, v) :: d' else (k, x) :: setitem d' key v
  end.

(** [cast_pp_steps_values], the same in swc_ephys and spikewrap. The function
    changes [pp_steps] in place and returns [None]; the result here is the
    content of the dict after the call. *)
Definition cast_pp_steps_values {E} (pp_steps : list (string * seq_value E))
    (list_or_tuple : string) : result (list (string * seq_value E)) :=
  if bool_decide (list_or_tuple ∈ ["list"; "tuple"]) then
    let func := if String.eqb list_or_tuple "tuple" then py_tuple else py_list in
    foldl
      (fun acc key =>
         let? d := acc in
         let? v := getitem d key in
         Ok (setitem d key (func v)))
      (Ok pp_steps) (keys pp_steps)
  else Raise (AssertionError "Must cast to `list` or `tuple`.").

(** The dict with [func] applied to every value. *)
Definition cast_all {E} (func : seq_value E -> seq_value E)
    (d : list (string * seq_value E)) : list (string * seq_value E) :=
  map (fun item => (fst item, func (snd item))) d.

(** [get_sorter_image_name] of swc_ephys/utils/utils.py. *)
Definition get_sorter_image_name (sorter : string) : string :=
  if str_contains "kilosort" sorter then sorter +:+ "-compiled-base.sif"
  else
    let sorter := if String.eqb sorter "spykingcircus" then "spyking-circus" else sorter in
    sorter +:+ "-base.sif".

End utils_more.

(** ** More concrete inputs *)

Module examples_more.

(** The artifacts of a run with eleven preprocessing steps, as (step number,
    step name, recording). *)
Definition eleven_items : list (nat * string * nat) :=
  [(0, "raw", 0); (1, "raw-a", 1); (2, "raw-a-b", 2); (3, "raw-a-b-c", 3);
   (4, "raw-a-b-c-d", 4); (5, "raw-a-b-c-d-e", 5); (6, "raw-a-b-c-d-e-f", 6);
   (7, "raw-a-b-c-d-e-f-g", 7); (8, "raw-a-b-c-d-e-f-g-h", 8);
   (9, "raw-a-b-c-d-e-f-g-h-i", 9); (10, "raw-a-b-c-d-e-f-g-h-i-j", 10)].

(** Three steps, stored out of order. *)
Definition three_items : list (nat * string * nat) :=
  [(0, "raw", 0); (1, "raw-a", 1); (2, "raw-a-b", 2)].

(** A preprocessing dict with a tuple and a list. *)
Definition pp_steps : list (string * utils_more.seq_value string) :=
  [("1", utils_more.PyTuple ["phase_shift"; "{}"]);
   ("2", utils_more.PyList ["bandpass_filter"; "{freq_min: 300}"])].

(** The same with tuples only. *)
Definition pp_steps_tuples : list (string * utils_more.seq_value string) :=
  [("1", utils_more.PyTuple ["phase_shift"; "{}"]);
   ("2", utils_more.PyTuple ["bandpass_filter"; "{freq_min: 300}"])].

(** A [Data] object of swc_ephys with two steps. *)
Definition data0 : swc_ephys.sort.Data := {|
  swc_ephys.sort.base_path := "/data";
  swc_ephys.sort.preprocessed_output_path := "/data/derivatives/sub-1/preprocessed";
  swc_ephys.sort.preprocessed_binary_data_path :=
    "/data/derivatives/sub-1/preprocessed/si_recording";
  swc_ephys.sort.sorter_base_output_path :=
    fun sorter => "/data/derivatives/sub-1/" +:+ sorter +:+ "-sorting";
  swc_ephys.sort.pp_steps :=
    [("0-raw", swc_ephys.sort.Build_recording 1);
     ("1-raw-a", swc_ephys.sort.Build_recording 1)]
|}.

(** Helpers for [data0]: loading gives it back, saving makes the folder. *)
Definition load0 (path : string) : M (swc_ephys.sort.Data * swc_ephys.sort.recording) :=
  ret (data0, swc_ephys.sort.Build_recording 1).

Definition save0 (data : swc_ephys.sort.Data) : M unit :=
  emit (EvMkdir (swc_ephys.sort.preprocessed_binary_data_path data)).

(** The folder of [r1] holds a completed output, its manifest and a file the
    user added. *)
Definition w_sorted : world :=
  World "/home/user"
    {[ examples.sorting_path (Some "r1") :=
         {["sorting_info.yaml"; "sorter_output"; "user_notes.txt"]} ]} ∅ [].

(** A sorter that completes for [r1] and fails for every other run. *)
Definition ok_r1 (output_folder : string) : bool :=
  String.eqb output_folder (examples.sorting_path (Some "r1")).

(** What looking up [run_sorting_slurm] or [run_full_pipeline_slurm] in
    [swc_ephys/utils/slurm.py] does: the module has no such attribute. *)
Definition missing_slurm_function (slurm_batch : pyval) : M unit :=
  raise (AttributeError "module 'swc_ephys.utils.slurm' has no such attribute").

(** A heap where the dict at 0 is empty. *)
Definition w_empty_dict : world := World "/home/user" ∅ {[ 0 := ∅ ]} [].

End examples_more.

(** * Theorems *)

Import policy observe observe_more.
Local Open Scope list_scope.

(** ** Counting *)

Lemma count_app f tr1 tr2 : count f (tr1 ++ tr2) = count f tr1 + count f tr2.
Proof. unfold count. by rewrite List.filter_app, length_app. Qed.

Lemma count_nil f : count f [] = 0.
Proof. reflexivity. Qed.

Lemma sorter_call_other s p q : q <> p -> is_sorter_call q (EvRunSorter s p) = false.
Proof. intros H. simpl. apply String.eqb_neq. congruence. Qed.

Lemma manifest_write_other p q : q <> p -> is_manifest_write q (EvSaveSortingInfo p) = false.
Proof. intros H. simpl. apply String.eqb_neq. congruence. Qed.

(** ** The loop of [run_sorting_on_all_runs] *)

Section SortingLoop.
Import spikewrap.sort.

Variable ok : string -> bool.
Variable sd : SortingData.

Ltac run_step :=
  unfold sort_run, bind, message_user, emit, is_dir, ret, raise, run_sorter,
    save_sorting_info, exists_on_disk in *; simpl in *.


Lemma sort_run_raises mode run w e :
  existing_output_flow (get_sorting_path sd run)
    (exists_on_disk (get_sorting_path sd run) w) mode = Raises e ->
  sort_run ok sd mode run w =
    (Raise e, World (cwd w) (disk w) (heap w) (trace w ++ [greeting sd run])).
Proof. intros H. run_step. by rewrite H. Qed.

Lemma sort_run_continue mode run w :
  existing_output_flow (get_sorting_path sd run)
    (exists_on_disk (get_sorting_path sd run) w) mode = Continue ->
  exists msg,
    sort_run ok sd mode run w =
      (Ok tt, World (cwd w) (disk w) (heap w) (trace w ++ [greeting sd run; EvMessage msg])).
Proof.
  intros H. run_step. rewrite H. eexists. simpl. by rewrite <- app_assoc.
Qed.

Lemma sort_run_fall_through mode run w :
  existing_output_flow (get_sorting_path sd run)
    (exists_on_disk (get_sorting_path sd run) w) mode = FallThrough ->
  sort_run ok sd mode run w =
    let p := get_sorting_path sd run in
    if ok p then
      (Ok tt,
       World (cwd w) (<[p := {[sorting_yaml; sorter_output]}]> (disk w)) (heap w)
         (trace w ++ [greeting sd run; EvRunSorter (sorter sd) p; EvSaveSortingInfo p]))
    else
      (Raise (SpikeSortingError p),
       World (cwd w) (<[p := ∅]> (disk w)) (heap w)
         (trace w ++ [greeting sd run; EvRunSorter (sorter sd) p])).
Proof.
  intros H. run_step. rewrite H. destruct (ok _); simpl.
  - rewrite lookup_insert_eq, insert_insert_eq, insert_delete_eq.
    by rewrite <- !app_assoc.
  - rewrite insert_delete_eq. by rewrite <- !app_assoc.
Qed.

(** The branch taken, by mode and existence. *)
Lemma flow_absent p mode : existing_output_flow p false mode = FallThrough.
Proof. reflexivity. Qed.

Lemma flow_fail p :
  exists msg, existing_output_flow p true "fail_if_exists" = Raises (RuntimeError msg).
Proof. eexists. reflexivity. Qed.

Lemma flow_load p : existing_output_flow p true "load_if_exists" = Continue.
Proof. reflexivity. Qed.

Lemma flow_continue_inv p b mode :
  existing_output_flow p b mode = Continue -> b = true /\ mode = "load_if_exists".
Proof.
  unfold existing_output_flow, quick_safety_check. destruct b; [|done].
  destruct (String.eqb mode "fail_if_exists") eqn:E1; [done|].
  destruct (String.eqb mode "load_if_exists") eqn:E2.
  - intros _. split; [done|]. by apply String.eqb_eq.
  - done.
Qed.

(** One step touches the folder of its own run only, and the trace grows. *)
Lemma sort_run_step mode run w :
  exists evs,
    step_of (get_sorting_path sd run) evs w (snd (sort_run ok sd mode run w)) /\
    (forall q, q <> get_sorting_path sd run ->
       count (is_sorter_call q) evs = 0 /\ count (is_manifest_write q) evs = 0) /\
    dom (disk w) ⊆ dom (disk (snd (sort_run ok sd mode run w))).
Proof.
  destruct (existing_output_flow (get_sorting_path sd run)
              (exists_on_disk (get_sorting_path sd run) w) mode) eqn:E.
  - rewrite (sort_run_fall_through _ _ _ E). simpl.
    destruct (ok _); simpl; eexists; (split; [|split]).
    + repeat split; simpl; try done. intros q Hq. by rewrite lookup_insert_ne.
    + intros q Hq. unfold count. simpl.
      by rewrite (proj2 (String.eqb_neq _ q)) by congruence.
    + rewrite dom_insert_L. set_solver.
    + repeat split; simpl; try done. intros q Hq. by rewrite lookup_insert_ne.
    + intros q Hq. unfold count. simpl.
      by rewrite (proj2 (String.eqb_neq _ q)) by congruence.
    + rewrite dom_insert_L. set_solver.
  - destruct (sort_run_continue _ _ _ E) as [msg ->]. simpl.
    eexists; (split; [|split]); [repeat split; simpl; done | done | done].
  - rewrite (sort_run_raises _ _ _ _ E). simpl.
    eexists; (split; [|split]); [repeat split; simpl; done | done | done].
Qed.


Lemma for_each_app {A} (body : A -> M unit) l1 l2 w :
  for_each body (l1 ++ l2) w = (for_each body l1 ;; for_each body l2) w.
Proof.
  revert w. induction l1 as [|x l1 IH]; intros w; simpl.
  - reflexivity.
  - unfold bind in *. destruct (body x w) as [[[]|e] w1]; [|done].
    apply IH.
Qed.

Lemma for_each_cons {A} (body : A -> M unit) x l w :
  for_each body (x :: l) w =
    match body x w with
    | (Ok _, w1) => for_each body l w1
    | (Raise e, w1) => (Raise e, w1)
    end.
Proof. reflexivity. Qed.

(** The loop leaves the working directory and the heap alone; folders are
    never lost. *)
Lemma loop_frame mode l w :
  cwd (snd (for_each (sort_run ok sd mode) l w)) = cwd w /\
  heap (snd (for_each (sort_run ok sd mode) l w)) = heap w /\
  dom (disk w) ⊆ dom (disk (snd (for_each (sort_run ok sd mode) l w))).
Proof.
  revert w. induction l as [|x l IH]; intros w.
  - done.
  - rewrite for_each_cons.
    destruct (sort_run_step mode x w) as (evs & (Ht & Hc & Hh & Hd) & _ & Hdom).
    destruct (sort_run ok sd mode x w) as [[[]|e] w1]; simpl in *.
    + destruct (IH w1) as (IHc & IHh & IHd). repeat split; [congruence|congruence|]. clear IH. set_solver.
    + done.
Qed.

(** Under [load_if_exists], a folder that is there stays as it is, and no
    call is made for it. *)
Lemma load_keeps l p w :
  p ∈ dom (disk w) ->
  disk (snd (for_each (sort_run ok sd "load_if_exists") l w)) !! p = disk w !! p /\
  exists evs,
    trace (snd (for_each (sort_run ok sd "load_if_exists") l w)) = trace w ++ evs /\
    count (is_sorter_call p) evs = 0 /\ count (is_manifest_write p) evs = 0.
Proof.
  revert w. induction l as [|x l IH]; intros w Hp.
  - split; [done|]. exists []. by rewrite app_nil_r.
  - rewrite for_each_cons.
    assert (exists evs,
      step_of (get_sorting_path sd x) evs w (snd (sort_run ok sd "load_if_exists" x w)) /\
      disk (snd (sort_run ok sd "load_if_exists" x w)) !! p = disk w !! p /\
      p ∈ dom (disk (snd (sort_run ok sd "load_if_exists" x w))) /\
      count (is_sorter_call p) evs = 0 /\ count (is_manifest_write p) evs = 0)
      as (evs & (Ht & _) & Hsame & Hp1 & Hc1 & Hc2).
    { destruct (String.string_dec p (get_sorting_path sd x)) as [->|Hne].
      - assert (existing_output_flow (get_sorting_path sd x)
                  (exists_on_disk (get_sorting_path sd x) w) "load_if_exists" = Continue) as E.
        { unfold exists_on_disk. rewrite bool_decide_eq_true_2 by done. apply flow_load. }
        destruct (sort_run_continue _ _ _ E) as [msg ->]. simpl.
        eexists. split; [repeat split; simpl; done|]. done.
      - destruct (sort_run_step "load_if_exists" x w) as (evs & Hstep & Hcount & Hdom).
        exists evs. destruct (Hcount p Hne) as [? ?].
        destruct Hstep as (? & ? & ? & Hd). repeat split; try done.
        + by apply Hd.
        + by apply Hdom. }
    destruct (sort_run ok sd "load_if_exists" x w) as [[[]|e] w1]; simpl in *.
    + destruct (IH w1 Hp1) as (IHd & evs' & IHt & IHc1 & IHc2).
      split; [congruence|]. exists (evs ++ evs').
      rewrite IHt, Ht, <- app_assoc, !count_app. repeat split; lia.
    + split; [done|]. by exists evs.
Qed.

(** A loop that completes leaves a folder for every run. *)
Lemma completed_all_exist mode l w w1 :
  for_each (sort_run ok sd mode) l w = (Ok tt, w1) ->
  forall run, run ∈ l -> get_sorting_path sd run ∈ dom (disk w1).
Proof.
  revert w. induction l as [|x l IH]; intros w Hrun run Hin.
  - by apply elem_of_nil in Hin.
  - rewrite for_each_cons in Hrun.
    destruct (sort_run ok sd mode x w) as [[[]|e] w2] eqn:Hstep; [|done].
    apply elem_of_cons in Hin as [->|Hin]; [|by eapply IH].
    assert (get_sorting_path sd x ∈ dom (disk w2)) as Hx.
    { destruct (existing_output_flow (get_sorting_path sd x)
                  (exists_on_disk (get_sorting_path sd x) w) mode) eqn:E.
      - rewrite (sort_run_fall_through _ _ _ E) in Hstep. simpl in Hstep.
        destruct (ok _); [|done]. injection Hstep as <-. simpl.
        rewrite dom_insert_L. set_solver.
      - destruct (sort_run_continue _ _ _ E) as [msg Hc]. rewrite Hc in Hstep.
        injection Hstep as <-. simpl.
        apply flow_continue_inv in E as [E _]. unfold exists_on_disk in E.
        by apply bool_decide_eq_true_1 in E.
      - by rewrite (sort_run_raises _ _ _ _ E) in Hstep. }
    pose proof (loop_frame mode l w2) as (_ & _ & Hdom).
    rewrite Hrun in Hdom. simpl in Hdom. set_solver.
Qed.

(** When every folder is there, [load_if_exists] calls nothing and changes
    nothing on disk. *)
Lemma load_all_exist l w :
  (forall run, run ∈ l -> get_sorting_path sd run ∈ dom (disk w)) ->
  exists evs,
    for_each (sort_run ok sd "load_if_exists") l w =
      (Ok tt, World (cwd w) (disk w) (heap w) (trace w ++ evs)) /\
    count is_external evs = 0.
Proof.
  revert w. induction l as [|x l IH]; intros w Hall.
  - exists []. rewrite app_nil_r. by destruct w.
  - rewrite for_each_cons.
    assert (existing_output_flow (get_sorting_path sd x)
              (exists_on_disk (get_sorting_path sd x) w) "load_if_exists" = Continue) as E.
    { unfold exists_on_disk. rewrite bool_decide_eq_true_2; [apply flow_load|].
      apply Hall. set_solver. }
    destruct (sort_run_continue _ _ _ E) as [msg ->].
    destruct (IH (World (cwd w) (disk w) (heap w)
                    (trace w ++ [greeting sd x; EvMessage msg]))) as (evs & -> & Hc).
    { intros run Hin. simpl. apply Hall. set_solver. }
    simpl. exists ([greeting sd x; EvMessage msg] ++ evs).
    rewrite <- app_assoc. split; [done|]. by rewrite count_app, Hc.
Qed.

(** The loop keeps manifests next to completed outputs. *)
Lemma manifest_invariant_loop mode l w :
  manifest_has_artifact (disk w) ->
  manifest_has_artifact (disk (snd (for_each (sort_run ok sd mode) l w))).
Proof.
  revert w. induction l as [|x l IH]; intros w Hinv.
  - done.
  - rewrite for_each_cons.
    assert (manifest_has_artifact (disk (snd (sort_run ok sd mode x w)))) as Hstep.
    { destruct (existing_output_flow (get_sorting_path sd x)
                  (exists_on_disk (get_sorting_path sd x) w) mode) eqn:E.
      - rewrite (sort_run_fall_through _ _ _ E). simpl.
        destruct (ok _); simpl; intros p f Hp Hf;
          (destruct (String.string_dec p (get_sorting_path sd x)) as [->|Hne];
           [rewrite lookup_insert_eq in Hp; injection Hp as <-; set_solver
           |rewrite lookup_insert_ne in Hp by done; by eapply Hinv]).
      - by destruct (sort_run_continue _ _ _ E) as [msg ->].
      - by rewrite (sort_run_raises _ _ _ _ E). }
    destruct (sort_run ok sd mode x w) as [[[]|e] w1]; simpl in *; [by apply IH|done].
Qed.

End SortingLoop.

(** ** Claims on the sorting stage *)

Section SortingClaims.
Import spikewrap.sort.

(** C1 (as amended). The sorting stage decides as the truth table says for
    every mode on a path that does not exist and for [FailIfExists],
    [Overwrite] and [LoadIfExists] on a path that exists; and the step of the
    loop carries out the action decided: proceeding fresh calls the sorter
    once and leaves nothing of the prior folder, loading and failing call
    nothing and leave the disk as it was. *)
Theorem C1_sorting_policy_table :
  (forall p mode, decide p false mode = decide_spec false mode) /\
  (forall p, decide p true FailIfExists = decide_spec true FailIfExists) /\
  (forall p, decide p true Overwrite = decide_spec true Overwrite) /\
  (forall p, decide p true LoadIfExists = decide_spec true LoadIfExists) /\
  (forall ok sd mode run w,
     performs (decide (get_sorting_path sd run)
                 (exists_on_disk (get_sorting_path sd run) w) mode)
       ok (get_sorting_path sd run) w (sort_run ok sd (mode_string mode) run w)).
Proof.
  split; [by intros p []|]. do 3 (split; [done|]).
  intros ok sd mode run w. unfold decide, performs.
  destruct (existing_output_flow (get_sorting_path sd run)
              (exists_on_disk (get_sorting_path sd run) w) (mode_string mode)) eqn:E; simpl.
  - rewrite (sort_run_fall_through _ _ _ _ _ E). simpl.
    destruct (ok (get_sorting_path sd run)); simpl; eexists; (split; [done|]);
      (split; [|done]); unfold count; simpl; by rewrite String.eqb_refl.
  - destruct (sort_run_continue ok _ _ _ _ E) as [msg ->]. simpl.
    eexists; split; [done|]. done.
  - rewrite (sort_run_raises _ _ _ _ _ _ E). simpl.
    eexists; split; [done|]. repeat split; eauto.
Qed.

(** C1, the entry of the table the code departs from: with
    [skip_if_exists] on a folder that exists the sorter runs, and what was in
    the folder is gone. *)
Lemma C1_skip_if_exists_runs_sorter :
  ~ (forall p path_exists mode, decide p path_exists mode = decide_spec path_exists mode) /\
  let p := examples.sorting_path (Some "r1") in
  let out := sort_run (examples.always true) examples.sd0 (mode_string SkipIfExists)
               (Some "r1") examples.w0 in
  exists_on_disk p examples.w0 = true /\
  decide p true SkipIfExists = ProceedFresh /\
  decide_spec true SkipIfExists = Skip /\
  count (is_sorter_call p) (trace (snd out)) = 1 /\
  disk examples.w0 !! p = Some {["sorter_output"; "user_notes.txt"]} /\
  disk (snd out) !! p = Some {[sorting_yaml; sorter_output]}.
Proof.
  split.
  - intros H. specialize (H "" true SkipIfExists). discriminate H.
  - repeat split; vm_compute; reflexivity.
Qed.

(** C2. Under [fail_if_exists], the step of a run whose folder exists raises
    [RuntimeError] and leaves the working directory, the disk and the heap as
    they were; the trace gains the console message of the run and no call.
    So does the loop once it reaches such a run: no later run is visited. *)
Theorem C2_fail_if_exists_fails_fast ok sd run w :
  get_sorting_path sd run ∈ dom (disk w) ->
  (exists msg,
     sort_run ok sd "fail_if_exists" run w =
       (Raise (RuntimeError msg),
        World (cwd w) (disk w) (heap w) (trace w ++ [greeting sd run]))) /\
  (forall pre post w0,
     for_each (sort_run ok sd "fail_if_exists") pre w0 = (Ok tt, w) ->
     exists msg,
       for_each (sort_run ok sd "fail_if_exists") (pre ++ run :: post) w0 =
         (Raise (RuntimeError msg),
          World (cwd w) (disk w) (heap w) (trace w ++ [greeting sd run]))).
Proof.
  intros Hp.
  assert (exists msg,
     sort_run ok sd "fail_if_exists" run w =
       (Raise (RuntimeError msg),
        World (cwd w) (disk w) (heap w) (trace w ++ [greeting sd run]))) as [msg Hstep].
  { destruct (flow_fail (get_sorting_path sd run)) as [msg E]. exists msg.
    apply sort_run_raises. unfold exists_on_disk.
    by rewrite bool_decide_eq_true_2. }
  split; [by exists msg|].
  intros pre post w0 Hpre. exists msg.
  rewrite for_each_app. unfold bind at 1. rewrite Hpre.
  rewrite for_each_cons. by rewrite Hstep.
Qed.

Lemma C2_fail_if_exists_witness :
  examples.sorting_path (Some "r1") ∈ dom (disk examples.w0) /\
  exists msg,
    sort_run (examples.always true) examples.sd0 "fail_if_exists" (Some "r1") examples.w0 =
      (Raise (RuntimeError msg),
       World (cwd examples.w0) (disk examples.w0) (heap examples.w0)
         (trace examples.w0 ++ [greeting examples.sd0 (Some "r1")])).
Proof.
  assert (examples.sorting_path (Some "r1") ∈ dom (disk examples.w0)) as H
    by (vm_compute; reflexivity).
  split; [exact H|].
  exact (proj1 (C2_fail_if_exists_fails_fast (examples.always true) examples.sd0
                  (Some "r1") examples.w0 H)).
Defined.


Lemma run_sorting_on_all_runs_unfold ok sd mode w :
  run_sorting_on_all_runs ok sd mode w =
    for_each (sort_run ok sd mode) (sorting_run_names sd)
      (World (cwd w) (disk w) (heap w)
         (trace w ++ [EvMessage ("Starting " +:+ sorter sd +:+ " sorting...")])).
Proof. reflexivity. Qed.

(** C3. After a first run of the sorting loop (in any mode, whatever its
    outcome), a second run under [load_if_exists] makes no sorter call and no
    manifest write for a run whose folder is there and leaves that folder as
    it is; when the first run completed, the second completes too, calls
    nothing at all and leaves the whole disk, the working directory and the
    heap as they were. *)
Theorem C3_load_if_exists_idempotent ok1 ok2 sd mode w0 r1 w1 :
  run_sorting_on_all_runs ok1 sd mode w0 = (r1, w1) ->
  (forall run,
     run ∈ sorting_run_names sd ->
     get_sorting_path sd run ∈ dom (disk w1) ->
     disk (snd (run_sorting_on_all_runs ok2 sd "load_if_exists" w1))
       !! get_sorting_path sd run = disk w1 !! get_sorting_path sd run /\
     exists evs,
       trace (snd (run_sorting_on_all_runs ok2 sd "load_if_exists" w1)) = trace w1 ++ evs /\
       count (is_sorter_call (get_sorting_path sd run)) evs = 0 /\
       count (is_manifest_write (get_sorting_path sd run)) evs = 0) /\
  (r1 = Ok tt ->
   exists evs,
     run_sorting_on_all_runs ok2 sd "load_if_exists" w1 =
       (Ok tt, World (cwd w1) (disk w1) (heap w1) (trace w1 ++ evs)) /\
     count is_external evs = 0).
Proof.
  intros Hfirst. split.
  - intros run _ Hp. rewrite run_sorting_on_all_runs_unfold.
    destruct (load_keeps ok2 sd (sorting_run_names sd) (get_sorting_path sd run)
                (World (cwd w1) (disk w1) (heap w1)
                   (trace w1 ++ [EvMessage ("Starting " +:+ sorter sd +:+ " sorting...")])))
      as (Hd & evs & Ht & Hc1 & Hc2); [exact Hp|].
    split; [exact Hd|].
    eexists (_ :: evs). rewrite Ht. simpl. rewrite <- app_assoc. split; [done|].
    change (?x :: evs) with ([x] ++ evs). rewrite !count_app, Hc1, Hc2. done.
  - intros ->. rewrite run_sorting_on_all_runs_unfold in Hfirst.
    pose proof (completed_all_exist _ _ _ _ _ _ Hfirst) as Hall.
    rewrite run_sorting_on_all_runs_unfold.
    destruct (load_all_exist ok2 sd (sorting_run_names sd)
                (World (cwd w1) (disk w1) (heap w1)
                   (trace w1 ++ [EvMessage ("Starting " +:+ sorter sd +:+ " sorting...")])))
      as (evs & -> & Hc); [exact Hall|].
    simpl. eexists (_ :: evs). rewrite <- app_assoc. split; [done|].
    change (?x :: evs) with ([x] ++ evs). by rewrite count_app, Hc.
Qed.

Lemma C3_load_if_exists_witness :
  let first := run_sorting_on_all_runs (examples.always true) examples.sd0 "overwrite"
                 examples.w0 in
  exists evs,
    run_sorting_on_all_runs (examples.always false) examples.sd0 "load_if_exists"
      (snd first) =
      (Ok tt, World (cwd (snd first)) (disk (snd first)) (heap (snd first))
                (trace (snd first) ++ evs)) /\
    count is_external evs = 0.
Proof.
  intros first.
  refine (proj2 (C3_load_if_exists_idempotent (examples.always true)
                   (examples.always false) examples.sd0 "overwrite" examples.w0
                   (Ok tt) (snd first) _) eq_refl).
  vm_compute. reflexivity.
Defined.

(** C9. When the step of a run reaches the sorter call, the sorter is called
    once, for the folder of the run; the manifest is written, once, exactly
    when that call completed, and the step raises otherwise. Afterwards the
    folder holds the manifest and the sorter output together or neither, and
    a disk where every manifest sat next to a completed output is still
    such. *)
Theorem C9_manifest_iff_sorter_completed ok sd mode run w :
  existing_output_flow (get_sorting_path sd run)
    (exists_on_disk (get_sorting_path sd run) w) mode = FallThrough ->
  exists evs,
    trace (snd (sort_run ok sd mode run w)) = trace w ++ evs /\
    count is_any_sorter_call evs = 1 /\
    count (is_sorter_call (get_sorting_path sd run)) evs = 1 /\
    count is_any_manifest_write evs = (if ok (get_sorting_path sd run) then 1 else 0) /\
    count (is_manifest_write (get_sorting_path sd run)) evs =
      (if ok (get_sorting_path sd run) then 1 else 0) /\
    (fst (sort_run ok sd mode run w) = Ok tt <-> ok (get_sorting_path sd run) = true) /\
    (exists f,
       disk (snd (sort_run ok sd mode run w)) !! get_sorting_path sd run = Some f /\
       (sorting_yaml ∈ f <-> ok (get_sorting_path sd run) = true) /\
       (sorter_output ∈ f <-> ok (get_sorting_path sd run) = true)) /\
    (manifest_has_artifact (disk w) ->
     manifest_has_artifact (disk (snd (sort_run ok sd mode run w)))).
Proof.
  intros E.
  assert (manifest_has_artifact (disk w) ->
          manifest_has_artifact (disk (snd (sort_run ok sd mode run w)))) as Hinv.
  { intros H. apply (manifest_invariant_loop ok sd mode [run] w) in H.
    rewrite for_each_cons in H.
    by destruct (sort_run ok sd mode run w) as [[[]|e] w1]. }
  revert Hinv. rewrite (sort_run_fall_through _ _ _ _ _ E). simpl.
  destruct (ok (get_sorting_path sd run)); simpl; intros Hinv;
    eexists; (split; [done|]); unfold count; simpl; rewrite String.eqb_refl; simpl.
  - repeat split; try done.
    exists {[sorting_yaml; sorter_output]}. rewrite lookup_insert_eq.
    repeat split; try done; set_solver.
  - repeat split; try done.
    exists ∅. rewrite lookup_insert_eq. repeat split; try done; set_solver.
Qed.

Lemma C9_manifest_witness :
  let p := examples.sorting_path (Some "r2") in
  let out := sort_run (examples.always false) examples.sd0 "fail_if_exists" (Some "r2")
               examples.w0 in
  existing_output_flow p (exists_on_disk p examples.w0) "fail_if_exists" = FallThrough /\
  exists evs,
    trace (snd out) = trace examples.w0 ++ evs /\
    count is_any_sorter_call evs = 1 /\
    count is_any_manifest_write evs = 0.
Proof.
  intros p out.
  assert (existing_output_flow p (exists_on_disk p examples.w0) "fail_if_exists"
          = FallThrough) as E by (vm_compute; reflexivity).
  split; [exact E|].
  destruct (C9_manifest_iff_sorter_completed (examples.always false) examples.sd0
              "fail_if_exists" (Some "r2") examples.w0 E)
    as (evs & Ht & Hs & _ & Hm & _).
  exists evs. repeat split; assumption.
Defined.

End SortingClaims.

(** ** [validate_inputs] and [run_sorting] *)

Section RunSorting.
Import spikewrap.sort.

Ltac step_monad :=
  unfold validate_inputs, bind, assert_, new_dict, read_dict, dict_update, ret, raise,
    emit, chdir in *; simpl in *.

Ltac break_match :=
  match goal with
  | |- context [match ?x with _ => _ end] =>
      lazymatch x with
      | context [match _ with _ => _ end] => fail
      | _ => destruct x eqn:?
      end
  end.

Ltac split_match := repeat (simpl in *; break_match).

(** [validate_inputs] leaves the working directory, the disk and the trace
    alone, whatever its outcome. *)
Lemma validate_inputs_frame slurm_batch sorter sorter_options verbose w :
  cwd (snd (validate_inputs slurm_batch sorter sorter_options verbose w)) = cwd w /\
  disk (snd (validate_inputs slurm_batch sorter sorter_options verbose w)) = disk w /\
  trace (snd (validate_inputs slurm_batch sorter sorter_options verbose w)) = trace w.
Proof. step_monad. split_match; done. Qed.

(** The only assertion of [validate_inputs] that can fail when [slurm_batch]
    is false is the one on the sorter name. *)
Lemma validate_inputs_guard_passes sorter sorter_options verbose w :
  fst (validate_inputs false sorter sorter_options verbose w)
    <> Raise (AssertionError "SLURM run has slurm_batch set True").
Proof. step_monad. split_match; done. Qed.

Lemma fresh_heap_loc (h : gmap loc (gmap string pyval)) l :
  is_Some (h !! l) -> l <> fresh (dom h).
Proof.
  intros Hl ->. apply elem_of_dom in Hl. by apply is_fresh in Hl.
Qed.

(** C10. The dict [validate_inputs] returns maps ["verbose"] to the
    [verbose] argument. When [sorter_options] is a dict that has the sorter's
    name as a key, bound to the dict at [l], the object returned is [l]
    itself, and the heap after the call holds the caller's nested dict with
    the ["verbose"] key written into it. *)
Theorem C10_validate_inputs_aliases sorter (sorter_options : option loc) verbose w :
  (forall slurm_batch l w',
     validate_inputs slurm_batch sorter sorter_options verbose w = (Ok l, w') ->
     exists d, heap w' !! l = Some d /\ d !! "verbose" = Some (VBool verbose)) /\
  (sorter ∈ supported_sorters ->
   forall o options l nested,
     sorter_options = Some o ->
     heap w !! o = Some options ->
     options !! sorter = Some (VRef l) ->
     heap w !! l = Some nested ->
     validate_inputs false sorter sorter_options verbose w =
       (Ok l,
        World (cwd w) (disk w)
          (<[l := <["verbose" := VBool verbose]> nested]>
             (<[fresh (dom (heap w)) := ∅]> (heap w)))
          (trace w))).
Proof.
  split.
  - intros slurm_batch l w'. step_monad. split_match; try done;
      intros [= <- <-]; simpl; eexists; rewrite lookup_insert_eq;
      (split; [done|apply lookup_insert_eq]).
  - intros Hs o options l nested -> Ho Hk Hl. step_monad.
    rewrite bool_decide_eq_true_2 by done. simpl.
    rewrite lookup_insert_ne by (apply not_eq_sym, fresh_heap_loc; eauto).
    rewrite Ho, Hk. simpl.
    rewrite lookup_insert_ne by (apply not_eq_sym, fresh_heap_loc; eauto).
    by rewrite Hl.
Qed.


Lemma C10_validate_inputs_witness :
  validate_inputs false "kilosort2_5" (Some 0) true examples.w_options =
    (Ok 1,
     World "/home/user" ∅
       (<[1 := <["verbose" := VBool true]> {[ "car" := VBool true ]}]>
          (<[fresh (dom (heap examples.w_options)) := ∅]> (heap examples.w_options)))
       []).
Proof.
  refine (proj2 (C10_validate_inputs_aliases "kilosort2_5" (Some 0) true examples.w_options)
            _ 0 {[ "kilosort2_5" := VRef 1 ]} 1 {[ "car" := VBool true ]}
            eq_refl _ _ _).
  - apply (bool_decide_unpack _). vm_compute. reflexivity.
  - vm_compute. reflexivity.
  - vm_compute. reflexivity.
  - vm_compute. reflexivity.
Defined.

Lemma loop_trace ok sd mode l w :
  exists evs,
    trace (snd (for_each (sort_run ok sd mode) l w)) = trace w ++ evs /\
    count is_chdir evs = 0.
Proof.
  revert w. induction l as [|x l IH]; intros w.
  - exists []. by rewrite app_nil_r.
  - rewrite for_each_cons.
    assert (exists evs, trace (snd (sort_run ok sd mode x w)) = trace w ++ evs /\
                        count is_chdir evs = 0) as (evs & Ht & Hc).
    { destruct (existing_output_flow (get_sorting_path sd x)
                  (exists_on_disk (get_sorting_path sd x) w) mode) eqn:E.
      - rewrite (sort_run_fall_through _ _ _ _ _ E). simpl.
        destruct (ok _); simpl; eexists; split; done.
      - destruct (sort_run_continue ok _ _ _ _ E) as [msg ->]. simpl.
        eexists; split; done.
      - rewrite (sort_run_raises _ _ _ _ _ _ E). simpl. eexists; split; done. }
    destruct (sort_run ok sd mode x w) as [[[]|e] w1]; simpl in *.
    + destruct (IH w1) as (evs' & Ht' & Hc'). exists (evs ++ evs').
      rewrite Ht', Ht, <- app_assoc, count_app. split; [done|lia].
    + by exists evs.
Qed.

(** The exceptions the loop can raise. *)
Lemma flow_raises_inv p b mode e :
  existing_output_flow p b mode = Raises e -> e <> guard_error.
Proof.
  unfold existing_output_flow, quick_safety_check.
  split_match; intros [= <-]; done.
Qed.

Lemma loop_never_raises_guard ok sd mode l w :
  fst (for_each (sort_run ok sd mode) l w) <> Raise guard_error.
Proof.
  revert w. induction l as [|x l IH]; intros w.
  - done.
  - rewrite for_each_cons.
    assert (fst (sort_run ok sd mode x w) <> Raise guard_error) as Hx.
    { destruct (existing_output_flow (get_sorting_path sd x)
                  (exists_on_disk (get_sorting_path sd x) w) mode) eqn:E.
      - rewrite (sort_run_fall_through _ _ _ _ _ E). simpl. by destruct (ok _).
      - by destruct (sort_run_continue ok _ _ _ _ E) as [msg ->].
      - rewrite (sort_run_raises _ _ _ _ _ _ E). simpl.
        apply flow_raises_inv in E. congruence. }
    destruct (sort_run ok sd mode x w) as [[[]|e] w1]; [apply IH|done].
Qed.

Lemma quiet_ret {A} (a : A) : quiet (ret a).
Proof. intros w. exists []. by rewrite app_nil_r. Qed.

Lemma quiet_raise {A} e : quiet (@raise A e).
Proof. intros w. exists []. by rewrite app_nil_r. Qed.

Lemma quiet_emit e : is_chdir e = false -> quiet (emit e).
Proof. intros H w. exists [e]. unfold count. simpl. by rewrite H. Qed.

Lemma quiet_bind {A B} (m : M A) (k : A -> M B) :
  quiet m -> (forall a, quiet (k a)) -> quiet (bind m k).
Proof.
  intros Hm Hk w. unfold bind. destruct (Hm w) as (evs & Ht & Hc & Hd).
  destruct (m w) as [[a|e] w1]; simpl in *.
  - destruct (Hk a w1) as (evs' & Ht' & Hc' & Hd'). exists (evs ++ evs').
    rewrite Ht', Ht, <- app_assoc, count_app. repeat split; [lia|congruence].
  - by exists evs.
Qed.

Lemma quiet_dict_update l key v : quiet (dict_update l key v).
Proof.
  intros w. unfold dict_update. exists []. rewrite app_nil_r.
  by destruct (heap w !! l).
Qed.

Lemma quiet_loop ok sd mode l : quiet (for_each (sort_run ok sd mode) l).
Proof.
  intros w. destruct (loop_trace ok sd mode l w) as (evs & Ht & Hc).
  destruct (loop_frame ok sd mode l w) as (Hd & _). by exists evs.
Qed.

Lemma quiet_run_sorting_on_all_runs ok sd mode :
  quiet (run_sorting_on_all_runs ok sd mode).
Proof.
  unfold run_sorting_on_all_runs, message_user.
  apply quiet_bind; [by apply quiet_emit|]. intros _. apply quiet_loop.
Qed.




Lemma never_raises_bind {A B} e (m : M A) (k : A -> M B) :
  never_raises e m -> (forall a, never_raises e (k a)) -> never_raises e (bind m k).
Proof.
  intros Hm Hk w. unfold bind. specialize (Hm w).
  destruct (m w) as [[a|e'] w1]; simpl in *; [apply Hk|].
  intros [= ->]. by destruct Hm.
Qed.

Lemma never_raises_emit e ev : never_raises e (emit ev).
Proof. by intros w. Qed.

Lemma run_sorting_never_raises_guard ok sd sorter_options mode verbose slurm_batch :
  never_raises guard_error (run_sorting ok sd sorter_options mode verbose slurm_batch).
Proof.
  unfold run_sorting.
  apply never_raises_bind; [apply never_raises_emit|intros _].
  destruct slurm_batch; [apply never_raises_emit|].
  apply never_raises_bind; [intros w; apply validate_inputs_guard_passes|intros l].
  apply never_raises_bind; [intros w; unfold chdir; simpl; done|intros _].
  apply never_raises_bind; [apply never_raises_emit|intros _].
  apply never_raises_bind; [|intros _].
  { destruct (str_contains _ _); [|by intros w].
    intros w. unfold dict_update. by destruct (heap w !! l). }
  apply never_raises_bind; [|intros _].
  { unfold run_sorting_on_all_runs.
    apply never_raises_bind; [apply never_raises_emit|intros _].
    intros w. apply loop_never_raises_guard. }
  apply never_raises_bind; [apply never_raises_emit|intros _].
  apply never_raises_emit.
Qed.

End RunSorting.

(** ** Batch dispatch: [run_in_slurm] *)

Section BatchDispatch.
Import spikewrap._slurm.

Variable default_slurm_options : gmap string pyval.
Variable now : string.
Variable job_id : nat.

(** Without a scheduler nothing is submitted. *)
Lemma run_in_slurm_not_installed slurm_opts func_to_run func_opts log_base_path w :
  exists msg,
    run_in_slurm false default_slurm_options now job_id slurm_opts func_to_run func_opts
      log_base_path w = (Raise (RuntimeError msg), w).
Proof. eexists. reflexivity. Qed.

(** C7, amended. With the scheduler installed and the options ["wait"] and
    ["env_name"] in force, [run_in_slurm] submits the task once and returns
    [None]: the job it obtains is used for the wait and the start message and
    is not handed to the caller. It waits on the job, once and after the
    submission, when the ["wait"] option in force is true, and not at all
    otherwise. *)
Theorem C7_run_in_slurm_submits_once slurm_opts func_to_run func_opts log_base_path w
    should_wait env_name :
  effective_slurm_opts default_slurm_options slurm_opts !! "wait" = Some should_wait ->
  effective_slurm_opts default_slurm_options slurm_opts !! "env_name" = Some env_name ->
  exists before after,
    run_in_slurm true default_slurm_options now job_id slurm_opts func_to_run func_opts
      log_base_path w =
      (Ok tt,
       World (cwd w) (disk w) (heap w)
         (trace w ++ before ++ [EvExecutorSubmit func_to_run env_name func_opts job_id]
            ++ after)) /\
    count is_submission before = 0 /\ count is_wait before = 0 /\
    count is_submission after = 0 /\
    count is_wait after = (if truthy (heap w) should_wait then 1 else 0) /\
    (truthy (heap w) should_wait = true -> EvJobWait job_id ∈ after) /\
    returned (fst (run_in_slurm true default_slurm_options now job_id slurm_opts
                     func_to_run func_opts log_base_path w)) = Ok VNone.
Proof.
  intros Hw He.
  unfold run_in_slurm, effective_slurm_opts in *. simpl.
  unfold bind, lift, dict_pop. rewrite Hw. simpl.
  rewrite lookup_delete_ne by done. rewrite He. simpl.
  unfold make_job_log_output_path, get_executor, send_user_start_message, message_user,
    if_, bind, emit, ret. simpl.
  destruct (truthy (heap w) should_wait); simpl.
  - eexists [_; _; _], [_; _]. rewrite <- !app_assoc. simpl.
    split; [reflexivity|]. repeat split; try done. set_solver.
  - eexists [_; _; _], [_]. rewrite <- !app_assoc. simpl.
    split; [reflexivity|]. repeat split; done.
Qed.

End BatchDispatch.

Lemma C7_run_in_slurm_witness :
  exists before after,
    spikewrap._slurm.run_in_slurm true examples.slurm_defaults "2023-07-01_12-00-00" 7
      (inr {[ "wait" := VBool true ]}) "run_full_pipeline" ∅ "/data/logs"
      examples.w_empty =
      (Ok tt,
       World "/home/user" ∅ ∅
         ([] ++ before
          ++ [EvExecutorSubmit "run_full_pipeline" (VStr "spikewrap") ∅ 7] ++ after)) /\
    count is_submission before = 0 /\ count is_wait before = 0 /\
    count is_submission after = 0 /\
    count is_wait after = 1 /\
    (truthy ∅ (VBool true) = true -> EvJobWait 7 ∈ after) /\
    returned (fst (spikewrap._slurm.run_in_slurm true examples.slurm_defaults
                     "2023-07-01_12-00-00" 7 (inr {[ "wait" := VBool true ]})
                     "run_full_pipeline" ∅ "/data/logs" examples.w_empty)) = Ok VNone.
Proof.
  refine (C7_run_in_slurm_submits_once examples.slurm_defaults "2023-07-01_12-00-00" 7
            (inr {[ "wait" := VBool true ]}) "run_full_pipeline" ∅ "/data/logs"
            examples.w_empty (VBool true) (VStr "spikewrap") _ _).
  - vm_compute. reflexivity.
  - vm_compute. reflexivity.
Defined.

(** C7 as stated: the call does not yield a handle. With the default options
    (["wait"] false) [run_in_slurm] submits once, does not wait, and what its
    caller receives is [None]. *)
Lemma C7_run_in_slurm_yields_no_handle :
  count is_submission
    (trace (snd (spikewrap._slurm.run_in_slurm true examples.slurm_defaults
                   "2023-07-01_12-00-00" 7 (inl true) "run_full_pipeline" ∅ "/data/logs"
                   examples.w_empty))) = 1 /\
  count is_wait
    (trace (snd (spikewrap._slurm.run_in_slurm true examples.slurm_defaults
                   "2023-07-01_12-00-00" 7 (inl true) "run_full_pipeline" ∅ "/data/logs"
                   examples.w_empty))) = 0 /\
  returned
    (fst (spikewrap._slurm.run_in_slurm true examples.slurm_defaults
            "2023-07-01_12-00-00" 7 (inl true) "run_full_pipeline" ∅ "/data/logs"
            examples.w_empty)) = Ok VNone /\
  ~ yields_handle
      (fst (spikewrap._slurm.run_in_slurm true examples.slurm_defaults
              "2023-07-01_12-00-00" 7 (inl true) "run_full_pipeline" ∅ "/data/logs"
              examples.w_empty)).
Proof.
  assert (spikewrap._slurm.run_in_slurm true examples.slurm_defaults
            "2023-07-01_12-00-00" 7 (inl true) "run_full_pipeline" ∅ "/data/logs"
            examples.w_empty
          = (Ok tt,
             World "/home/user" ∅ ∅
               [EvMkdir "/data/logs/slurm_logs/2023-07-01_12-00-00";
                EvMessage ("The SLURM batch output logs will be saved to "
                           +:+ "/data/logs/slurm_logs/2023-07-01_12-00-00");
                EvExecutor "/data/logs/slurm_logs/2023-07-01_12-00-00";
                EvExecutorSubmit "run_full_pipeline" (VStr "spikewrap") ∅ 7;
                EvMessage ("SLURM job submitted: the function " +:+ "run_full_pipeline"
                           +:+ " submitted to SLURM. Output will be logged to: "
                           +:+ "/data/logs/slurm_logs/2023-07-01_12-00-00")])) as ->.
  { vm_compute. reflexivity. }
  repeat split; try reflexivity.
  intros (v & Hv & Hne). simpl in Hv. by injection Hv as <-.
Qed.

(** ** Datetime order of paths *)

Section DatetimeOrder.
Import swc_ephys.utils.
Context {A : Type}.
Variable key : A -> Z.

Lemma insert_by_perm x l : Permutation (insert_by key x l) (x :: l).
Proof.
  induction l as [|y l IH]; simpl; [done|].
  destruct (Z.leb (key x) (key y)); [done|].
  rewrite IH. apply perm_swap.
Qed.

Lemma sort_by_perm l : Permutation (sort_by key l) l.
Proof.
  induction l as [|x l IH]; simpl; [done|].
  rewrite insert_by_perm. by constructor.
Qed.

Lemma insert_by_ascending x l : ascending key l -> ascending key (insert_by key x l).
Proof.
  unfold ascending. induction l as [|y l IH]; simpl; intros Hs.
  - by repeat constructor.
  - destruct (Z.leb (key x) (key y)) eqn:E.
    + constructor; [done|]. constructor. lia.
    + apply Sorted_inv in Hs as [Hs Hhd]. constructor; [by apply IH|].
      destruct l as [|z l]; simpl.
      * constructor. lia.
      * destruct (Z.leb (key x) (key z)); constructor; [lia|].
        by apply HdRel_inv in Hhd.
Qed.

Lemma sort_by_ascending l : ascending key (sort_by key l).
Proof.
  induction l as [|x l IH]; simpl; [constructor|by apply insert_by_ascending].
Qed.

(** A stable sort leaves an ascending list as it is. *)
Lemma sort_by_fixes_ascending l : ascending key l -> sort_by key l = l.
Proof.
  unfold ascending. induction l as [|x l IH]; simpl; intros Hs; [done|].
  apply Sorted_inv in Hs as [Hs Hhd]. rewrite IH by done.
  destruct l as [|y l]; simpl; [done|].
  apply HdRel_inv in Hhd. by rewrite (proj2 (Z.leb_le _ _) Hhd).
Qed.

Lemma sort_by_fixed_iff l : sort_by key l = l <-> ascending key l.
Proof.
  split; [|apply sort_by_fixes_ascending].
  intros <-. apply sort_by_ascending.
Qed.

End DatetimeOrder.

Section DatetimeClaims.
Import swc_ephys.utils.

(** What the check computes: with ["creation"] it compares the list with
    its sort by modification time, with ["modification"] by creation time. *)
Lemma datetime_check_reads getctime getmtime l :
  (list_of_files_are_in_datetime_order getctime getmtime l "creation" = Ok true
     <-> ascending getmtime l) /\
  (list_of_files_are_in_datetime_order getctime getmtime l "modification" = Ok true
     <-> ascending getctime l).
Proof.
  unfold list_of_files_are_in_datetime_order. simpl.
  split; rewrite <- sort_by_fixed_iff; (split; [intros [= H]|intros H]).
  - by apply bool_decide_eq_true_1 in H.
  - by rewrite bool_decide_eq_true_2.
  - by apply bool_decide_eq_true_1 in H.
  - by rewrite bool_decide_eq_true_2.
Qed.

(** The sort is a permutation of its input in ascending creation time. *)
Lemma sort_list_of_paths_sorted getctime l :
  Permutation (sort_list_of_paths_by_datetime_order getctime l) l /\
  ascending getctime (sort_list_of_paths_by_datetime_order getctime l).
Proof. split; [apply sort_by_perm|apply sort_by_ascending]. Qed.

(** C8, the code at an input. Folder [a] was created before [b] and modified
    after it: the list [a, b] is in ascending creation order, and is what the
    sort by creation time returns, yet the check with ["creation"] answers
    [False], and with ["modification"] it answers [True] although the list is
    not in ascending modification order. *)
Theorem C8_creation_check_uses_modification_time :
  ascending examples.getctime ["a"; "b"] /\
  ~ ascending examples.getmtime ["a"; "b"] /\
  sort_list_of_paths_by_datetime_order examples.getctime ["b"; "a"] = ["a"; "b"] /\
  list_of_files_are_in_datetime_order examples.getctime examples.getmtime
    ["a"; "b"] "creation" = Ok false /\
  list_of_files_are_in_datetime_order examples.getctime examples.getmtime
    (sort_list_of_paths_by_datetime_order examples.getctime ["b"; "a"]) "creation"
    = Ok false /\
  list_of_files_are_in_datetime_order examples.getctime examples.getmtime
    ["a"; "b"] "modification" = Ok true.
Proof.
  split; [|split].
  - repeat constructor. vm_compute. discriminate.
  - intros H. apply Sorted_inv in H as [_ H]. apply HdRel_inv in H.
    vm_compute in H. by apply H.
  - repeat split; vm_compute; reflexivity.
Qed.

End DatetimeClaims.

(** ** Resolving the last preprocessing step *)

Section StepKeys.

Lemma split_head_uint d rest :
  split_head (NilEmpty.string_of_uint d +:+ String "-" rest) = NilEmpty.string_of_uint d.
Proof. induction d; simpl; by rewrite ?IHd. Qed.

Lemma split_head_step_key n name : split_head (step_key n name) = py_str n.
Proof. apply split_head_uint. Qed.

Lemma to_uint_not_nil n : Nat.to_uint n <> Decimal.Nil.
Proof.
  rewrite <- (Unsigned.of_to n) at 1. rewrite Unsigned.to_of.
  apply DecimalFacts.unorm_nonnil.
Qed.

Lemma py_int_str n : py_int (py_str n) = Ok n.
Proof.
  unfold py_int, py_str. pose proof (to_uint_not_nil n) as Hn.
  pose proof (NilEmpty.usu (Nat.to_uint n)) as Hu.
  destruct (NilEmpty.string_of_uint (Nat.to_uint n)) eqn:E.
  - destruct (Nat.to_uint n); simpl in E; try discriminate. done.
  - rewrite Hu. by rewrite Unsigned.of_to.
Qed.

Lemma py_str_inj a b : py_str a = py_str b -> a = b.
Proof.
  intros H. pose proof (py_int_str a) as Ha. rewrite H, py_int_str in Ha. congruence.
Qed.

Lemma step_key_inj a b name name' : step_key a name = step_key b name' -> a = b.
Proof.
  intros H. apply py_str_inj.
  by rewrite <- (split_head_step_key a name), <- (split_head_step_key b name'), H.
Qed.

Lemma np_max_spec l m : np_max l = Ok m -> In m l /\ Forall (fun x => x <= m) l.
Proof.
  destruct l as [|x l]; [done|]. simpl. intros [= <-].
  induction l as [|y l [IHin IHall]]; simpl.
  - split; [by left|]. by repeat constructor.
  - apply Forall_cons in IHall as [Hx Hl].
    destruct (Nat.max_spec y (foldr Nat.max x l)) as [[Hlt ->]|[Hle ->]].
    + split.
      * destruct IHin as [E|?]; [left; exact E|right; right; assumption].
      * constructor; [done|]. constructor; [lia|done].
    + split; [by right; left|].
      constructor; [lia|]. constructor; [done|].
      eapply Forall_impl; [exact Hl|]. simpl. intros. lia.
Qed.

Lemma np_max_of_steps l n :
  0 < n -> Permutation l (seq 0 n) -> np_max l = Ok (n - 1).
Proof.
  intros Hn Hp. destruct (np_max l) as [m|e] eqn:E.
  - apply np_max_spec in E as [Hin Hall].
    apply (Permutation_in _ Hp), in_seq in Hin.
    assert (In (n - 1) l) as Hlast.
    { apply (Permutation_in _ (Permutation_sym Hp)), in_seq. lia. }
    rewrite Forall_forall in Hall. apply list_elem_of_In, Hall in Hlast.
    f_equal. lia.
  - destruct l; [|done]. apply Permutation_length in Hp.
    rewrite length_seq in Hp. simpl in Hp. lia.
Qed.

Context {V : Type}.
Implicit Types items : list (nat * string * V).

Lemma keys_data_of items :
  keys (data_of items) = map (fun item => step_key (fst (fst item)) (snd (fst item))) items.
Proof. unfold keys, data_of. rewrite map_map. done. Qed.

Lemma step_numbers_of items :
  spikewrap.utils.get_keys_first_char_as_int (data_of items)
    = Ok (map (fun item => fst (fst item)) items).
Proof.
  unfold spikewrap.utils.get_keys_first_char_as_int. rewrite keys_data_of.
  induction items as [|[[n name] v] items IH]; simpl; [done|].
  by rewrite split_head_step_key, py_int_str, IH.
Qed.

Lemma select_none items k :
  ~ In k (map (fun item => fst (fst item)) items) ->
  List.filter (fun key => String.eqb (split_head key) (py_str k)) (keys (data_of items)) = [].
Proof.
  rewrite keys_data_of.
  induction items as [|[[n name] v] items IH]; simpl; intros Hk; [done|].
  rewrite split_head_step_key.
  destruct (String.eqb (py_str n) (py_str k)) eqn:E.
  - apply String.eqb_eq, py_str_inj in E. tauto.
  - apply IH. tauto.
Qed.

Lemma select_one items k name v :
  List.NoDup (map (fun item => fst (fst item)) items) ->
  In (k, name, v) items ->
  List.filter (fun key => String.eqb (split_head key) (py_str k)) (keys (data_of items))
    = [step_key k name].
Proof.
  induction items as [|[[n name'] v'] items IH]; simpl; intros Hnd Hin; [done|].
  apply NoDup_cons_iff in Hnd as [Hn Hnd].
  change (keys (data_of ((n, name', v') :: items)))
    with (step_key n name' :: keys (data_of items)).
  simpl. rewrite split_head_step_key.
  destruct Hin as [[= -> -> ->]|Hin].
  - rewrite String.eqb_refl. f_equal. by apply select_none.
  - destruct (String.eqb (py_str n) (py_str k)) eqn:E.
    + apply String.eqb_eq, py_str_inj in E. subst n. destruct Hn.
      apply in_map_iff. by exists (k, name, v).
    + by apply IH.
Qed.

Lemma getitem_step items k name v :
  List.NoDup (map (fun item => fst (fst item)) items) ->
  In (k, name, v) items ->
  getitem (data_of items) (step_key k name) = Ok v.
Proof.
  induction items as [|[[n name'] v'] items IH]; simpl; intros Hnd Hin; [done|].
  apply NoDup_cons_iff in Hnd as [Hn Hnd].
  destruct (String.eqb (step_key n name') (step_key k name)) eqn:E.
  - apply String.eqb_eq, step_key_inj in E. subst n.
    destruct Hin as [[= -> ->]|Hin]; [done|]. destruct Hn.
    apply in_map_iff. by exists (k, name, v).
  - destruct Hin as [[= -> -> ->]|Hin]; [by rewrite String.eqb_refl in E|by apply IH].
Qed.

(** spikewrap's version resolves ["last"] for any number of steps: when the
    keys carry the step numbers 0 to n-1, each once and in any order, it
    returns the artifact of step n-1 and never opens the debugger. *)
Lemma spikewrap_last_step_resolved items w :
  items <> [] ->
  Permutation (map (fun item => fst (fst item)) items) (seq 0 (length items)) ->
  exists name v,
    In (length items - 1, name, v) items /\
    spikewrap.utils.get_dict_value_from_step_num (data_of items) "last" w
      = (Ok (v, step_key (length items - 1) name), w).
Proof.
  intros Hne Hp.
  assert (0 < length items) as Hn by (destruct items; [done|simpl; lia]).
  assert (List.NoDup (map (fun item => fst (fst item)) items)) as Hnd.
  { eapply Permutation_NoDup; [symmetry; exact Hp|apply seq_NoDup]. }
  assert (In (length items - 1) (map (fun item => fst (fst item)) items)) as Hin.
  { apply (Permutation_in _ (Permutation_sym Hp)), in_seq. lia. }
  apply in_map_iff in Hin as ([[k name] v] & Hk & Hin). simpl in Hk. subst k.
  exists name, v. split; [done|].
  unfold spikewrap.utils.get_dict_value_from_step_num, bind, lift. simpl.
  rewrite step_numbers_of. simpl.
  rewrite (np_max_of_steps _ _ Hn Hp). simpl.
  rewrite py_int_str. simpl.
  rewrite keys_data_of, length_map.
  rewrite (proj2 (Z.eqb_eq _ _)) by lia.
  rewrite <- keys_data_of, (select_one _ _ _ _ Hnd Hin). simpl.
  unfold bind, ret, lift. simpl.
  by rewrite (getitem_step _ _ _ _ Hnd Hin).
Qed.

End StepKeys.

(** C4, the code at an input. A run with the eleven steps 0 to 10 has one
    artifact per step number and no gap, yet swc_ephys's
    [get_dict_value_from_step_num] fails on ["last"]: it reads the step
    number of a key off its first character, so the key of step 10 counts as
    step 1 and the maximum found is 9. spikewrap's version, which reads the
    text before the first dash, returns the artifact of step 10. *)
Theorem C4_last_step_with_eleven_steps :
  keys examples.eleven_steps = keys (data_of
    [(0, "raw", 0); (1, "raw-a", 1); (2, "raw-a-b", 2); (3, "raw-a-b-c", 3);
     (4, "raw-a-b-c-d", 4); (5, "raw-a-b-c-d-e", 5); (6, "raw-a-b-c-d-e-f", 6);
     (7, "raw-a-b-c-d-e-f-g", 7); (8, "raw-a-b-c-d-e-f-g-h", 8);
     (9, "raw-a-b-c-d-e-f-g-h-i", 9); (10, "raw-a-b-c-d-e-f-g-h-i-j", 10)]) /\
  swc_ephys.utils.get_keys_first_char_as_int examples.eleven_steps
    = Ok [0; 1; 2; 3; 4; 5; 6; 7; 8; 9; 1] /\
  swc_ephys.utils.get_dict_value_from_step_num examples.eleven_steps "last"
    = Raise (AssertionError "the last key has been taken incorrectly") /\
  spikewrap.utils.get_dict_value_from_step_num examples.eleven_steps "last"
    examples.w_empty
    = (Ok (10, "10-raw-a-b-c-d-e-f-g-h-i-j"), examples.w_empty).
Proof. repeat split; vm_compute; reflexivity. Qed.

(** Violations the checks let through or do not stop on. With step 0 twice
    and step 1 missing the maximum still equals the count minus one, and
    both versions return the artifact of step 2. With the last step twice,
    swc_ephys's version raises; spikewrap's opens the debugger and goes on to
    return the first of the two. *)
Lemma last_step_checks_incomplete :
  swc_ephys.utils.get_dict_value_from_step_num examples.duplicate_and_gap "last"
    = Ok (2, "2-raw-a-b") /\
  spikewrap.utils.get_dict_value_from_step_num examples.duplicate_and_gap "last"
    examples.w_empty = (Ok (2, "2-raw-a-b"), examples.w_empty) /\
  swc_ephys.utils.get_dict_value_from_step_num examples.duplicate_last "last"
    = Raise (AssertionError "pp_key must always have unique first char") /\
  spikewrap.utils.get_dict_value_from_step_num examples.duplicate_last "last"
    examples.w_empty
    = (Ok (1, "2-raw-a"), World "/home/user" ∅ ∅ [EvBreakpoint]).
Proof. repeat split; vm_compute; reflexivity. Qed.

(** ** swc_ephys/pipeline/sort.py *)

Section SwcEphysSorting.
Import swc_ephys.sort.

Variable load_data_and_recording : string -> M (Data * recording).
Variable save_all_preprocessed_data : Data -> M unit.
Variable check_singularity_install : bool.
Variable ok : string -> bool.

(** With [use_existing_preprocessed_file] set and the preprocessed folder
    there, the data is loaded: nothing is saved again. *)
Lemma get_data_and_recording_loads data w :
  exists_on_disk (preprocessed_binary_data_path data) w = true ->
  exists msg,
    get_data_and_recording load_data_and_recording save_all_preprocessed_data
      (inl data) true w =
    load_data_and_recording (preprocessed_output_path data)
      (World (cwd w) (disk w) (heap w) (trace w ++ [EvMessage msg])).
Proof.
  intros H. unfold get_data_and_recording, bind, is_dir, message_user, emit.
  unfold exists_on_disk in H. rewrite H. simpl. by eexists.
Qed.

Variable run_sorting_slurm : pyval -> M unit.

(** The abstract helpers are taken neither to change the working directory
    nor to call the sorter. *)
Hypothesis load_calm : forall path, calm (load_data_and_recording path).
Hypothesis save_calm : forall data, calm (save_all_preprocessed_data data).

Lemma calm_ret {A} (a : A) : calm (ret a).
Proof. intros w. exists []. by rewrite app_nil_r. Qed.

Lemma calm_emit e : is_chdir e = false -> is_any_sorter_call e = false -> calm (emit e).
Proof. intros H1 H2 w. exists [e]. unfold count. simpl. by rewrite H1, H2. Qed.

Lemma calm_heap_only {A} (m : M A) : heap_only m -> calm m.
Proof.
  intros H w. destruct (H w) as (Hc & _ & Ht). exists []. by rewrite app_nil_r.
Qed.

Lemma calm_bind {A B} (m : M A) (k : A -> M B) :
  calm m -> (forall a, calm (k a)) -> calm (bind m k).
Proof.
  intros Hm Hk w. unfold bind. destruct (Hm w) as (evs & Ht & Hc & Hs & Hd).
  destruct (m w) as [[a|e] w1]; simpl in *.
  - destruct (Hk a w1) as (evs' & Ht' & Hc' & Hs' & Hd'). exists (evs ++ evs').
    rewrite Ht', Ht, <- app_assoc, !count_app, Hc, Hc', Hs, Hs'. repeat split; congruence.
  - by exists evs.
Qed.

Lemma calm_get_data_and_recording data use_existing_preprocessed_file :
  calm (get_data_and_recording load_data_and_recording save_all_preprocessed_data
          data use_existing_preprocessed_file).
Proof.
  unfold get_data_and_recording. destruct data as [data|path].
  - apply calm_bind; [by apply calm_heap_only|intros exists_].
    destruct (use_existing_preprocessed_file && exists_).
    + apply calm_bind; [by apply calm_emit|intros _]. apply load_calm.
    + apply calm_bind; [by apply calm_emit|intros _].
      apply calm_bind; [apply save_calm|intros _].
      apply calm_bind; [by apply calm_heap_only|intros last]. apply calm_ret.
  - apply calm_bind; [by apply calm_emit|intros _]. apply load_calm.
Qed.

Lemma settles_cwd_raise {A L} (locate : M L) target e w :
  settles_cwd locate target (@raise A e) w.
Proof. exists []. rewrite app_nil_r. split; [done|]. by left. Qed.

Lemma settles_cwd_bind {A B L} (locate : M L) target (m : M A) (k : A -> M B) w :
  heap_only m ->
  (forall a w', settles_cwd locate target (k a) w') ->
  settles_cwd locate target (bind m k) w.
Proof.
  intros Hm Hk. unfold settles_cwd, bind. destruct (Hm w) as (Hc & Hd & Ht).
  destruct (m w) as [[a|e] w1]; simpl in *.
  - destruct (Hk a w1) as (evs & Ht' & H). exists evs. rewrite Ht', Ht. split; [done|].
    destruct H as [(? & ? & ?)|(w2 & loaded & w3 & ? & ? & ? & ?)].
    + left. repeat split; congruence.
    + right. exists w2, loaded, w3. repeat split; try tauto; congruence.
  - exists []. rewrite app_nil_r. split; [done|]. by left.
Qed.

Lemma heap_only_assert b msg : heap_only (assert_ b msg).
Proof. by destruct b. Qed.

Lemma heap_only_new_dict : heap_only new_dict.
Proof. done. Qed.

Lemma heap_only_read_dict l : heap_only (read_dict l).
Proof. intros w. unfold read_dict. by destruct (heap w !! l). Qed.

Lemma heap_only_dict_update l key v : heap_only (dict_update l key v).
Proof. intros w. unfold dict_update. by destruct (heap w !! l). Qed.

Lemma heap_only_bind {A B} (m : M A) (k : A -> M B) :
  heap_only m -> (forall a, heap_only (k a)) -> heap_only (bind m k).
Proof.
  intros Hm Hk w. unfold bind. destruct (Hm w) as (Hc & Hd & Ht).
  destruct (m w) as [[a|e] w1]; simpl in *; [|done].
  destruct (Hk a w1) as (Hc' & Hd' & Ht'). repeat split; congruence.
Qed.

(** From the call of [get_data_and_recording] on: one [chdir], to the base
    path of the data that call returned, then one sorter call. *)
Lemma settles_cwd_from_loading data use_existing_preprocessed_file sorter
    overwrite_existing_sorter_output w :
  settles_cwd
    (get_data_and_recording load_data_and_recording save_all_preprocessed_data data
       use_existing_preprocessed_file)
    (fun loaded => base_path (fst loaded))
    (let* loaded :=
       get_data_and_recording load_data_and_recording save_all_preprocessed_data data
         use_existing_preprocessed_file in
     let loaded_data := fst loaded in
     chdir (base_path loaded_data) ;;
     message_user ("Starting " +:+ sorter +:+ " sorting...") ;;
     emit (EvImageSettings sorter) ;;
     (if Nat.ltb 1 (get_num_segments (snd loaded))
      then message_user "Conatenating into a single segment."
      else ret tt) ;;
     run_sorter ok sorter (sorter_base_output_path loaded_data sorter)
       overwrite_existing_sorter_output) w.
Proof.
  unfold settles_cwd, bind.
  destruct (calm_get_data_and_recording data use_existing_preprocessed_file w)
    as (evs & Ht & Hc & Hs & Hd).
  destruct (get_data_and_recording _ _ data use_existing_preprocessed_file w)
    as [[loaded|e] w1] eqn:E; simpl in *.
  - unfold chdir, message_user, emit, run_sorter, ret. simpl.
    eexists (evs ++ [EvChdir (base_path (fst loaded)); EvMessage _; EvImageSettings sorter]
             ++ (if Nat.ltb 1 (get_num_segments (snd loaded)) then [EvMessage _] else [])
             ++ [EvRunSorter sorter (sorter_base_output_path (fst loaded) sorter)]).
    split.
    + destruct (Nat.ltb 1 _); simpl;
        destruct (negb overwrite_existing_sorter_output && _); simpl;
        try destruct (ok _); simpl; rewrite Ht, <- !app_assoc; reflexivity.
    + right. exists w, loaded, w1. repeat split; try done.
      * rewrite !count_app, Hc. by destruct (Nat.ltb 1 _).
      * rewrite !count_app, Hs. by destruct (Nat.ltb 1 _).
      * apply elem_of_app. right. apply elem_of_cons. by left.
      * destruct (Nat.ltb 1 _); simpl;
          destruct (negb overwrite_existing_sorter_output && _); simpl;
          try destruct (ok _); reflexivity.
  - exists evs. split; [done|]. by left.
Qed.


End SwcEphysSorting.

(** * Further properties of the code *)

(** ** The sorting loop as a whole *)

Section SortingLoopMore.
Import spikewrap.sort observe_more.

Variable ok : string -> bool.
Variable sd : SortingData.

Lemma loop_other mode l q w :
  (forall run, run ∈ l -> get_sorting_path sd run <> q) ->
  disk (snd (for_each (sort_run ok sd mode) l w)) !! q = disk w !! q.
Proof.
  revert w. induction l as [|x l IH]; intros w Hq; [done|].
  rewrite for_each_cons.
  destruct (sort_run_step ok sd mode x w) as (evs & (_ & _ & _ & Hd) & _ & _).
  assert (get_sorting_path sd x <> q) as Hx by (apply Hq, elem_of_cons; by left).
  specialize (Hd q (not_eq_sym Hx)).
  destruct (sort_run ok sd mode x w) as [[[]|e] w1]; simpl in *; [|done].
  rewrite IH; [done|]. intros run Hin. apply Hq, elem_of_cons. by right.
Qed.


(** The loop keeps, in any mode and whatever its outcome, every manifest next
    to a completed sorter output. *)
Theorem sorting_loop_keeps_manifest_invariant mode w :
  manifest_has_artifact (disk w) ->
  manifest_has_artifact (disk (snd (run_sorting_on_all_runs ok sd mode w))).
Proof.
  intros H. rewrite run_sorting_on_all_runs_unfold.
  by apply manifest_invariant_loop.
Qed.

Lemma flow_overwrite p b : existing_output_flow p b "overwrite" = FallThrough.
Proof. by destruct b. Qed.

Lemma overwrite_stays_fresh l p w w' :
  disk w !! p = Some {[sorting_yaml; sorter_output]} ->
  for_each (sort_run ok sd "overwrite") l w = (Ok tt, w') ->
  disk w' !! p = Some {[sorting_yaml; sorter_output]}.
Proof.
  revert w. induction l as [|x l IH]; intros w Hp Hrun.
  - by injection Hrun as <-.
  - rewrite for_each_cons in Hrun.
    rewrite (sort_run_fall_through _ _ _ _ _ (flow_overwrite _ _)) in Hrun.
    simpl in Hrun. destruct (ok (get_sorting_path sd x)); [|done].
    eapply IH; [|exact Hrun]. simpl.
    destruct (String.string_dec (get_sorting_path sd x) p) as [->|Hne].
    + apply lookup_insert_eq.
    + by rewrite lookup_insert_ne.
Qed.

Lemma overwrite_completed l w w' :
  for_each (sort_run ok sd "overwrite") l w = (Ok tt, w') ->
  forall run, run ∈ l ->
    disk w' !! get_sorting_path sd run = Some {[sorting_yaml; sorter_output]}.
Proof.
  revert w. induction l as [|x l IH]; intros w Hrun run Hin.
  - by apply elem_of_nil in Hin.
  - pose proof Hrun as Hrun'. rewrite for_each_cons in Hrun.
    rewrite (sort_run_fall_through _ _ _ _ _ (flow_overwrite _ _)) in Hrun.
    simpl in Hrun. destruct (ok (get_sorting_path sd x)); [|done].
    apply elem_of_cons in Hin as [->|Hin]; [|by eapply IH].
    eapply overwrite_stays_fresh; [|exact Hrun]. simpl. apply lookup_insert_eq.
Qed.

(** A loop that completes under [overwrite] leaves, for every run, a folder
    holding the sorter output and the manifest and nothing else: whatever was
    in a prior folder at that path is gone. *)
Theorem overwrite_leaves_only_fresh_output w w' :
  run_sorting_on_all_runs ok sd "overwrite" w = (Ok tt, w') ->
  forall run, run ∈ sorting_run_names sd ->
    disk w' !! get_sorting_path sd run = Some {[sorting_yaml; sorter_output]}.
Proof.
  rewrite run_sorting_on_all_runs_unfold. apply overwrite_completed.
Qed.

Lemma flow_fail_absent_inv p b :
  existing_output_flow p b "fail_if_exists" = FallThrough -> b = false.
Proof. by destruct b. Qed.

Lemma fail_if_exists_completed l w w' :
  for_each (sort_run ok sd "fail_if_exists") l w = (Ok tt, w') ->
  (forall run, run ∈ l -> get_sorting_path sd run ∉ dom (disk w)) /\
  List.NoDup (map (get_sorting_path sd) l) /\
  exists evs,
    trace w' = trace w ++ evs /\
    count is_any_sorter_call evs = length l /\
    count is_any_manifest_write evs = length l.
Proof.
  revert w. induction l as [|x l IH]; intros w Hrun.
  - injection Hrun as <-. split; [intros run Hin; by apply elem_of_nil in Hin|].
    split; [constructor|]. exists []. by rewrite app_nil_r.
  - rewrite for_each_cons in Hrun.
    destruct (existing_output_flow (get_sorting_path sd x)
                (exists_on_disk (get_sorting_path sd x) w) "fail_if_exists") eqn:E.
    + rewrite (sort_run_fall_through _ _ _ _ _ E) in Hrun. simpl in Hrun.
      destruct (ok (get_sorting_path sd x)); [|done].
      apply IH in Hrun as (Habs & Hnd & evs & Ht & Hc1 & Hc2). simpl in *.
      apply flow_fail_absent_inv in E. unfold exists_on_disk in E.
      apply bool_decide_eq_false_1 in E.
      assert (forall run, run ∈ l ->
                get_sorting_path sd run <> get_sorting_path sd x /\
                get_sorting_path sd run ∉ dom (disk w)) as Hl.
      { intros run Hin. specialize (Habs run Hin).
        rewrite dom_insert_L, not_elem_of_union, not_elem_of_singleton in Habs.
        tauto. }
      split; [|split].
      * intros run Hin. apply elem_of_cons in Hin as [->|Hin]; [done|by apply Hl].
      * constructor; [|done]. intros Hin. apply in_map_iff in Hin as (run & Heq & Hin).
        apply list_elem_of_In in Hin. by destruct (Hl run Hin).
      * eexists (_ :: _ :: _ :: evs). rewrite Ht, <- app_assoc. split; [done|].
        unfold count in *. simpl. by rewrite Hc1, Hc2.
    + by apply flow_continue_inv in E as [_ E].
    + by rewrite (sort_run_raises _ _ _ _ _ _ E) in Hrun.
Qed.

(** When the loop completes under [fail_if_exists], no run had a folder at
    the start, the sorting paths of the runs are pairwise distinct, and the
    sorter was called and a manifest written exactly once per run. *)
Theorem fail_if_exists_completed_sorts_each_run_once w w' :
  run_sorting_on_all_runs ok sd "fail_if_exists" w = (Ok tt, w') ->
  (forall run, run ∈ sorting_run_names sd -> get_sorting_path sd run ∉ dom (disk w)) /\
  List.NoDup (map (get_sorting_path sd) (sorting_run_names sd)) /\
  exists evs,
    trace w' = trace w ++ evs /\
    count is_any_sorter_call evs = length (sorting_run_names sd) /\
    count is_any_manifest_write evs = length (sorting_run_names sd).
Proof.
  rewrite run_sorting_on_all_runs_unfold. intros Hrun.
  apply fail_if_exists_completed in Hrun as (Habs & Hnd & evs & Ht & Hc1 & Hc2).
  simpl in *. repeat split; try done.
  eexists (_ :: evs). rewrite Ht, <- app_assoc. split; [done|].
  unfold count in *. simpl. by rewrite Hc1, Hc2.
Qed.

Lemma flow_raises_runtime p b mode e :
  existing_output_flow p b mode = Raises e ->
  b = true /\ mode = "fail_if_exists" /\ exists msg, e = RuntimeError msg.
Proof.
  unfold existing_output_flow, quick_safety_check. destruct b; [|done].
  destruct (String.eqb mode "fail_if_exists") eqn:E1.
  - intros [= <-]. apply String.eqb_eq in E1. eauto.
  - destruct (String.eqb mode "load_if_exists"); done.
Qed.

Lemma loop_exceptions mode l w e :
  fst (for_each (sort_run ok sd mode) l w) = Raise e ->
  (mode = "fail_if_exists" /\ exists msg, e = RuntimeError msg) \/
  (exists run, run ∈ l /\ e = SpikeSortingError (get_sorting_path sd run) /\
               ok (get_sorting_path sd run) = false).
Proof.
  revert w. induction l as [|x l IH]; intros w; [done|].
  rewrite for_each_cons.
  destruct (existing_output_flow (get_sorting_path sd x)
              (exists_on_disk (get_sorting_path sd x) w) mode) eqn:E.
  - rewrite (sort_run_fall_through _ _ _ _ _ E). simpl.
    destruct (ok (get_sorting_path sd x)) eqn:Eok.
    + intros H. apply IH in H as [H|(run & Hin & H)]; [by left|].
      right. exists run. split; [apply elem_of_cons; by right|done].
    + simpl. intros [= <-]. right. exists x. split; [apply elem_of_cons; by left|done].
  - destruct (sort_run_continue ok _ _ _ _ E) as [msg ->].
    intros H. apply IH in H as [H|(run & Hin & H)]; [by left|].
    right. exists run. split; [apply elem_of_cons; by right|done].
  - rewrite (sort_run_raises _ _ _ _ _ _ E). simpl. intros [= <-].
    apply flow_raises_runtime in E as (_ & -> & Hmsg). by left.
Qed.

(** The only exceptions that leave [run_sorting_on_all_runs] are the
    [RuntimeError] of [fail_if_exists] and the failure of a sorter call for
    one of the runs: the assertions of [quick_safety_check] never fail, and
    the manifest is never written into a missing folder. *)
Theorem sorting_loop_exceptions mode w e :
  fst (run_sorting_on_all_runs ok sd mode w) = Raise e ->
  (mode = "fail_if_exists" /\ exists msg, e = RuntimeError msg) \/
  (exists run, run ∈ sorting_run_names sd /\
               e = SpikeSortingError (get_sorting_path sd run) /\
               ok (get_sorting_path sd run) = false).
Proof. rewrite run_sorting_on_all_runs_unfold. apply loop_exceptions. Qed.

End SortingLoopMore.

(** ** [validate_inputs] and [run_sorting], further *)

Section RunSortingMore.
Import spikewrap.sort observe_more.

Ltac step_monad :=
  unfold validate_inputs, bind, assert_, new_dict, read_dict, dict_update, ret, raise,
    emit, chdir in *; simpl in *.

Ltac break_match :=
  match goal with
  | |- context [match ?x with _ => _ end] =>
      lazymatch x with
      | context [match _ with _ => _ end] => fail
      | _ => destruct x eqn:?
      end
  end.

Ltac split_match := repeat (simpl in *; break_match).

Lemma validate_inputs_unsupported slurm_batch sorter sorter_options verbose w :
  sorter ∉ supported_sorters ->
  exists msg,
    validate_inputs slurm_batch sorter sorter_options verbose w
      = (Raise (AssertionError msg), w).
Proof.
  intros Hs. step_monad. destruct slurm_batch; [by eexists|]. simpl.
  rewrite bool_decide_eq_false_2 by done. by eexists.
Qed.

(** [validate_inputs] refuses a batch flag that is set and a sorter that is
    not supported before it does anything: the whole process state, the heap
    included, is as it was. *)
Theorem validate_inputs_rejects slurm_batch sorter sorter_options verbose w :
  (slurm_batch = true \/ (sorter ∉ supported_sorters)) ->
  exists msg,
    validate_inputs slurm_batch sorter sorter_options verbose w
      = (Raise (AssertionError msg), w).
Proof.
  intros [->|Hs]; [by eexists|]. by apply validate_inputs_unsupported.
Qed.

Lemma validate_inputs_rejects_witness :
  exists msg,
    validate_inputs false "kilosort4" None true examples.w_options
      = (Raise (AssertionError msg), examples.w_options).
Proof.
  apply (validate_inputs_rejects false "kilosort4" None true examples.w_options).
  right. apply (bool_decide_eq_false_1 _). vm_compute. reflexivity.
Defined.

(** Without options for the sorter - [sorter_options] is [None], or a dict
    that lacks the sorter's name - [validate_inputs] returns a new dict that
    holds the ["verbose"] entry alone, and every dict that was on the heap is
    as it was. *)
Theorem validate_inputs_without_options_returns_new_dict sorter sorter_options verbose w :
  sorter ∈ supported_sorters ->
  (sorter_options = None \/
   exists o options,
     sorter_options = Some o /\ heap w !! o = Some options /\ options !! sorter = None) ->
  (fresh (dom (heap w)) ∉ dom (heap w)) /\
  validate_inputs false sorter sorter_options verbose w =
    (Ok (fresh (dom (heap w))),
     World (cwd w) (disk w)
       (<[fresh (dom (heap w)) := {[ "verbose" := VBool verbose ]}]> (heap w))
       (trace w)).
Proof.
  intros Hs Hopt. split; [apply is_fresh|].
  step_monad. rewrite bool_decide_eq_true_2 by done. simpl.
  destruct Hopt as [->|(o & options & -> & Ho & Hk)]; simpl.
  - rewrite lookup_insert_eq. by rewrite insert_insert_eq, insert_empty.
  - rewrite lookup_insert_ne by (apply not_eq_sym, fresh_heap_loc; eauto).
    rewrite Ho, Hk. simpl. rewrite lookup_insert_eq.
    by rewrite insert_insert_eq, insert_empty.
Qed.

Lemma validate_inputs_without_options_witness :
  validate_inputs false "mountainsort5" (Some 0) true examples.w_options =
    (Ok (fresh (dom (heap examples.w_options))),
     World "/home/user" ∅
       (<[fresh (dom (heap examples.w_options)) := {[ "verbose" := VBool true ]}]>
          (heap examples.w_options))
       []).
Proof.
  refine (proj2 (validate_inputs_without_options_returns_new_dict "mountainsort5" (Some 0)
                   true examples.w_options _ _)).
  - apply (bool_decide_unpack _). vm_compute. reflexivity.
  - right. exists 0, {[ "kilosort2_5" := VRef 1 ]}.
    repeat split; vm_compute; reflexivity.
Defined.

(** Whatever its arguments and its outcome, [validate_inputs] changes no
    dict on the heap other than the one it returns. *)
Theorem validate_inputs_changes_returned_dict_only slurm_batch sorter sorter_options
    verbose w l' d :
  heap w !! l' = Some d ->
  fst (validate_inputs slurm_batch sorter sorter_options verbose w) <> Ok l' ->
  heap (snd (validate_inputs slurm_batch sorter sorter_options verbose w)) !! l' = Some d.
Proof.
  intros Hl' Hne.
  assert (l' <> fresh (dom (heap w))) as Hfresh by (apply fresh_heap_loc; eauto).
  revert Hne. step_monad. split_match; simpl; intros Hne; try done;
    rewrite ?lookup_insert_ne; try done; try congruence.
Qed.

Lemma validate_inputs_changes_returned_dict_only_witness :
  heap (snd (validate_inputs false "kilosort2_5" (Some 0) true examples.w_options)) !! 0
    = Some {[ "kilosort2_5" := VRef 1 ]}.
Proof.
  apply (validate_inputs_changes_returned_dict_only false "kilosort2_5" (Some 0) true
           examples.w_options 0 {[ "kilosort2_5" := VRef 1 ]}).
  - vm_compute. reflexivity.
  - vm_compute. discriminate.
Defined.


Lemma validate_inputs_aliased sorter o options l nested verbose w :
  sorter ∈ supported_sorters ->
  heap w !! o = Some options ->
  options !! sorter = Some (VRef l) ->
  heap w !! l = Some nested ->
  validate_inputs false sorter (Some o) verbose w =
    (Ok l,
     World (cwd w) (disk w)
       (<[l := <["verbose" := VBool verbose]> nested]>
          (<[fresh (dom (heap w)) := ∅]> (heap w)))
       (trace w)).
Proof.
  intros Hs Ho Hk Hl. step_monad.
  rewrite bool_decide_eq_true_2 by done. simpl.
  rewrite lookup_insert_ne by (apply not_eq_sym, fresh_heap_loc; eauto).
  rewrite Ho, Hk. simpl.
  rewrite lookup_insert_ne by (apply not_eq_sym, fresh_heap_loc; eauto).
  by rewrite Hl.
Qed.

Lemma run_sorting_on_all_runs_heap ok sd mode w :
  heap (snd (run_sorting_on_all_runs ok sd mode w)) = heap w.
Proof.
  rewrite run_sorting_on_all_runs_unfold.
  match goal with |- context [for_each _ _ ?W] =>
    by destruct (loop_frame ok sd mode (sorting_run_names sd) W) as (_ & Hh & _)
  end.
Qed.

Lemma run_sorting_unfold ok sd sorter_options mode verbose w :
  run_sorting ok sd sorter_options mode verbose false w =
    match validate_inputs false (sorter sd) sorter_options verbose
            (World (cwd w) (disk w) (heap w) (trace w ++ [EvStartLogging])) with
    | (Ok l, w1) =>
        match (if str_contains "kilosort" (sorter sd)
               then dict_update l "delete_tmp_files" (VBool false)
               else ret tt)
                (World (base_path sd) (disk w1) (heap w1)
                   (trace w1 ++ [EvChdir (base_path sd); EvImageSettings (sorter sd)])) with
        | (Ok _, w2) =>
            match run_sorting_on_all_runs ok sd mode w2 with
            | (Ok _, w3) =>
                (Ok tt,
                 World (cwd w3) (disk w3) (heap w3)
                   (trace w3 ++ [EvMoveImage (sorter sd); EvStopLogging]))
            | (Raise e, w3) => (Raise e, w3)
            end
        | (Raise e, w2) => (Raise e, w2)
        end
    | (Raise e, w1) => (Raise e, w1)
    end.
Proof.
  unfold run_sorting, bind, emit, chdir. simpl.
  destruct (validate_inputs _ _ _ _ _) as [[l|e] w1]; [|done]. simpl.
  rewrite <- app_assoc. simpl.
  destruct (str_contains "kilosort" (sorter sd)).
  - unfold dict_update. simpl. destruct (heap w1 !! l); [|done].
    destruct (run_sorting_on_all_runs ok sd mode _) as [[[]|e] w3]; [|done].
    simpl. by rewrite <- app_assoc.
  - unfold ret.
    destruct (run_sorting_on_all_runs ok sd mode _) as [[[]|e] w3]; [|done].
    simpl. by rewrite <- app_assoc.
Qed.

(** The options [run_sorting] adds end up in the caller's own dict. When
    [sorter_options] binds the sorter's name to the dict at [l], that dict
    holds after the call, whatever the outcome of the sorting, the
    ["verbose"] entry and, for a kilosort sorter, the entry
    ["delete_tmp_files"] set to [False]. *)
Theorem run_sorting_writes_options_into_callers_dict ok sd o options l nested mode
    verbose w :
  sorter sd ∈ supported_sorters ->
  heap w !! o = Some options ->
  options !! sorter sd = Some (VRef l) ->
  heap w !! l = Some nested ->
  heap (snd (run_sorting ok sd (Some o) mode verbose false w)) !! l =
    Some (if str_contains "kilosort" (sorter sd)
          then <["delete_tmp_files" := VBool false]> (<["verbose" := VBool verbose]> nested)
          else <["verbose" := VBool verbose]> nested).
Proof.
  intros Hs Ho Hk Hl. rewrite run_sorting_unfold.
  rewrite (validate_inputs_aliased _ o options l nested) by done. simpl.
  destruct (str_contains "kilosort" (sorter sd)).
  - unfold dict_update. simpl. rewrite lookup_insert_eq.
    match goal with |- context [run_sorting_on_all_runs ok sd mode ?W] =>
      pose proof (run_sorting_on_all_runs_heap ok sd mode W) as Hh;
      destruct (run_sorting_on_all_runs ok sd mode W) as [[[]|e] w3]
    end; simpl in *; rewrite Hh; by rewrite lookup_insert_eq.
  - unfold ret.
    match goal with |- context [run_sorting_on_all_runs ok sd mode ?W] =>
      pose proof (run_sorting_on_all_runs_heap ok sd mode W) as Hh;
      destruct (run_sorting_on_all_runs ok sd mode W) as [[[]|e] w3]
    end; simpl in *; rewrite Hh; by rewrite lookup_insert_eq.
Qed.


Lemma run_sorting_writes_options_witness :
  heap (snd (run_sorting (examples.always false) examples.sd0 (Some 0) "overwrite" true
               false examples.w_options)) !! 1 =
    Some (<["delete_tmp_files" := VBool false]>
            (<["verbose" := VBool true]> {[ "car" := VBool true ]})).
Proof.
  refine (run_sorting_writes_options_into_callers_dict (examples.always false)
            examples.sd0 0 {[ "kilosort2_5" := VRef 1 ]} 1 {[ "car" := VBool true ]}
            "overwrite" true examples.w_options _ _ _ _).
  - apply (bool_decide_unpack _). vm_compute. reflexivity.
  - vm_compute. reflexivity.
  - vm_compute. reflexivity.
  - vm_compute. reflexivity.
Defined.

Lemma loop_events_only ok sd mode l w :
  exists evs,
    trace (snd (for_each (sort_run ok sd mode) l w)) = trace w ++ evs /\
    Forall (fun e => is_loop_event e = true) evs.
Proof.
  revert w. induction l as [|x l IH]; intros w.
  - exists []. by rewrite app_nil_r.
  - rewrite for_each_cons.
    assert (exists evs, trace (snd (sort_run ok sd mode x w)) = trace w ++ evs /\
                        Forall (fun e => is_loop_event e = true) evs)
      as (evs & Ht & Hall).
    { destruct (existing_output_flow (get_sorting_path sd x)
                  (exists_on_disk (get_sorting_path sd x) w) mode) eqn:E.
      - rewrite (sort_run_fall_through _ _ _ _ _ E). simpl.
        destruct (ok _); simpl; eexists; (split; [done|]); by repeat constructor.
      - destruct (sort_run_continue ok _ _ _ _ E) as [msg ->]. simpl.
        eexists; split; [done|]. by repeat constructor.
      - rewrite (sort_run_raises _ _ _ _ _ _ E). simpl.
        eexists; split; [done|]. by repeat constructor. }
    destruct (sort_run ok sd mode x w) as [[[]|e] w1]; simpl in *.
    + destruct (IH w1) as (evs' & Ht' & Hall'). exists (evs ++ evs').
      rewrite Ht', Ht, <- app_assoc. split; [done|]. by apply Forall_app.
    + by exists evs.
Qed.

Lemma loop_events_no_logging evs :
  Forall (fun e => is_loop_event e = true) evs ->
  count is_start_logging evs = 0 /\ count is_stop_logging evs = 0.
Proof.
  induction 1 as [|e evs He _ [IH1 IH2]]; [done|].
  unfold count in *. simpl. by destruct e; simpl in *; try discriminate.
Qed.

(** [run_sorting] starts the logger once, on entry, and stops it once only
    when the call runs in-process to its end: in the batch branch, and
    whenever validation or sorting raises, the logger is left running. *)
Theorem run_sorting_stops_logger_only_on_completion ok sd sorter_options mode verbose
    slurm_batch w :
  exists evs,
    trace (snd (run_sorting ok sd sorter_options mode verbose slurm_batch w))
      = trace w ++ evs /\
    count is_start_logging evs = 1 /\
    count is_stop_logging evs =
      (if slurm_batch then 0
       else match fst (run_sorting ok sd sorter_options mode verbose slurm_batch w) with
            | Ok _ => 1
            | Raise _ => 0
            end).
Proof.
  destruct slurm_batch.
  { unfold run_sorting, bind, emit. simpl. eexists.
    split; [by rewrite <- app_assoc|]. done. }
  rewrite run_sorting_unfold.
  match goal with |- context [validate_inputs ?b ?s ?o ?v ?W] =>
    destruct (validate_inputs_frame b s o v W) as (_ & _ & Ht);
    destruct (validate_inputs b s o v W) as [[l|e] w1]
  end; simpl in Ht; [|by exists [EvStartLogging]].
  assert (exists w2,
    (if str_contains "kilosort" (sorter sd)
     then dict_update l "delete_tmp_files" (VBool false) else ret tt)
      (World (base_path sd) (disk w1) (heap w1)
         (trace w1 ++ [EvChdir (base_path sd); EvImageSettings (sorter sd)]))
    = (match heap w1 !! l with
       | None => if str_contains "kilosort" (sorter sd)
                 then Raise (AttributeError "update") else Ok tt
       | Some _ => Ok tt
       end, w2) /\
    trace w2 = trace w1 ++ [EvChdir (base_path sd); EvImageSettings (sorter sd)])
    as (w2 & -> & Ht2).
  { destruct (str_contains "kilosort" (sorter sd)); unfold dict_update, ret; simpl;
      destruct (heap w1 !! l); eexists; split; reflexivity. }
  destruct (match heap w1 !! l with
            | Some _ => Ok tt
            | None => if str_contains "kilosort" (sorter sd)
                      then Raise (AttributeError "update") else Ok tt
            end) as [[]|e].
  - rewrite run_sorting_on_all_runs_unfold.
    match goal with |- context [for_each _ _ ?W] =>
      destruct (loop_events_only ok sd mode (sorting_run_names sd) W) as (evs & Ht3 & Hall);
      destruct (for_each (sort_run ok sd mode) (sorting_run_names sd) W) as [[[]|e] w3]
    end; simpl in *; apply loop_events_no_logging in Hall as [Hs1 Hs2].
    + eexists ([EvStartLogging; EvChdir _; EvImageSettings _; EvMessage _] ++ evs
               ++ [EvMoveImage _; EvStopLogging]).
      rewrite Ht3, Ht2, Ht, <- !app_assoc. split; [done|].
      rewrite !count_app, Hs1, Hs2. done.
    + eexists ([EvStartLogging; EvChdir _; EvImageSettings _; EvMessage _] ++ evs).
      rewrite Ht3, Ht2, Ht, <- !app_assoc. split; [done|].
      rewrite !count_app, Hs1, Hs2. done.
  - simpl. eexists [EvStartLogging; EvChdir _; EvImageSettings _].
    rewrite Ht2, Ht, <- !app_assoc. done.
Qed.

(** A sorter that is not supported makes [run_sorting] fail right after the
    logger is started: no [chdir], no sorter call, and the working directory,
    the disk and the heap are as they were. *)
Theorem run_sorting_rejects_unsupported_sorter ok sd sorter_options mode verbose w :
  sorter sd ∉ supported_sorters ->
  exists msg,
    run_sorting ok sd sorter_options mode verbose false w =
      (Raise (AssertionError msg),
       World (cwd w) (disk w) (heap w) (trace w ++ [EvStartLogging])).
Proof.
  intros Hs. rewrite run_sorting_unfold.
  match goal with |- context [validate_inputs ?b ?s ?o ?v ?W] =>
    destruct (validate_inputs_unsupported b s o v W Hs) as [msg ->]
  end. by exists msg.
Qed.

Lemma loop_events_no_submission evs :
  Forall (fun e => is_loop_event e = true) evs -> count is_submission evs = 0.
Proof.
  induction 1 as [|e evs He _ IH]; [done|].
  unfold count in *. simpl. by destruct e; simpl in *; try discriminate.
Qed.

(** A call of [run_sorting] that runs in-process makes no call into the
    slurm module. *)
Lemma run_sorting_in_process_submits_nothing ok sd sorter_options mode verbose w :
  exists evs,
    trace (snd (run_sorting ok sd sorter_options mode verbose false w)) = trace w ++ evs /\
    count is_submission evs = 0.
Proof.
  rewrite run_sorting_unfold.
  match goal with |- context [validate_inputs ?b ?s ?o ?v ?W] =>
    destruct (validate_inputs_frame b s o v W) as (_ & _ & Ht);
    destruct (validate_inputs b s o v W) as [[l|e] w1]
  end; simpl in Ht; [|by exists [EvStartLogging]].
  assert (exists r w2,
    (if str_contains "kilosort" (sorter sd)
     then dict_update l "delete_tmp_files" (VBool false) else ret tt)
      (World (base_path sd) (disk w1) (heap w1)
         (trace w1 ++ [EvChdir (base_path sd); EvImageSettings (sorter sd)]))
    = (r, w2) /\
    trace w2 = trace w1 ++ [EvChdir (base_path sd); EvImageSettings (sorter sd)])
    as (r & w2 & -> & Ht2).
  { destruct (str_contains "kilosort" (sorter sd)); unfold dict_update, ret; simpl;
      destruct (heap w1 !! l); do 2 eexists; split; reflexivity. }
  destruct r as [[]|e].
  - rewrite run_sorting_on_all_runs_unfold.
    match goal with |- context [for_each _ _ ?W] =>
      destruct (loop_events_only ok sd mode (sorting_run_names sd) W) as (evs & Ht3 & Hall);
      destruct (for_each (sort_run ok sd mode) (sorting_run_names sd) W) as [[[]|e] w3]
    end; simpl in *; apply loop_events_no_submission in Hall.
    + eexists ([EvStartLogging; EvChdir _; EvImageSettings _; EvMessage _] ++ evs
               ++ [EvMoveImage _; EvStopLogging]).
      rewrite Ht3, Ht2, Ht, <- !app_assoc. split; [done|].
      rewrite !count_app, Hall. done.
    + eexists ([EvStartLogging; EvChdir _; EvImageSettings _; EvMessage _] ++ evs).
      rewrite Ht3, Ht2, Ht, <- !app_assoc. split; [done|].
      rewrite !count_app, Hall. done.
  - simpl. eexists [EvStartLogging; EvChdir _; EvImageSettings _].
    rewrite Ht2, Ht, <- !app_assoc. done.
Qed.


End RunSortingMore.

(** ** Step keys, further *)

Section StepKeysMore.
Context {V : Type}.
Implicit Types items : list (nat * string * V).
Implicit Types data : list (string * V).

Lemma py_str_not_last k : String.eqb (py_str k) "last" = false.
Proof.
  apply String.eqb_neq. intros H. pose proof (py_int_str k) as Hk.
  rewrite H in Hk. discriminate Hk.
Qed.

Lemma getitem_in data key v : getitem data key = Ok v -> In (key, v) data.
Proof.
  induction data as [|[k x] data IH]; simpl; [done|].
  destruct (String.eqb k key) eqn:E.
  - intros [= ->]. apply String.eqb_eq in E as ->. by left.
  - intros H. right. by apply IH.
Qed.

(** spikewrap's [get_dict_value_from_step_num] with a step number: when the
    step numbers of the keys are pairwise distinct, asking for the number of
    one of them returns its artifact and key, without opening the debugger. *)
Theorem spikewrap_step_number_resolved items k name v w :
  List.NoDup (map (fun item => fst (fst item)) items) ->
  In (k, name, v) items ->
  spikewrap.utils.get_dict_value_from_step_num (data_of items) (py_str k) w
    = (Ok (v, step_key k name), w).
Proof.
  intros Hnd Hin.
  unfold spikewrap.utils.get_dict_value_from_step_num, bind, lift.
  rewrite py_str_not_last. simpl.
  rewrite (select_one _ _ _ _ Hnd Hin). simpl.
  unfold bind, ret, lift. simpl.
  by rewrite (getitem_step _ _ _ _ Hnd Hin).
Qed.

(** A step number that no key carries: spikewrap's version opens the
    debugger and then fails with [IndexError] on the empty selection. Asking
    for ["last"] on a dict without keys fails in [np.max], in both
    versions. *)
Theorem step_lookup_failures items k w :
  ~ In k (map (fun item => fst (fst item)) items) ->
  spikewrap.utils.get_dict_value_from_step_num (data_of items) (py_str k) w
    = (Raise IndexError,
       World (cwd w) (disk w) (heap w) (trace w ++ [EvBreakpoint])) /\
  (exists msg,
     spikewrap.utils.get_dict_value_from_step_num (@nil (string * V)) "last" w
       = (Raise (ValueError msg), w)) /\
  (exists msg,
     swc_ephys.utils.get_dict_value_from_step_num (@nil (string * V)) "last"
       = Raise (ValueError msg)).
Proof.
  intros Hk. split; [|split; by eexists].
  unfold spikewrap.utils.get_dict_value_from_step_num, bind, lift.
  rewrite py_str_not_last. simpl.
  by rewrite (select_none _ _ Hk).
Qed.

Lemma filter_in_split_head step key (l : list string) :
  In key (List.filter (fun key => String.eqb (split_head key) step) l) ->
  split_head key = step.
Proof.
  intros H. apply filter_In in H as [_ H]. by apply String.eqb_eq.
Qed.

(** What spikewrap's [get_dict_value_from_step_num] returns is an entry of
    the dict, for any dict: the value is the one stored under the key; with
    a step number, the text of the key before the first dash is that number;
    with ["last"], it is the count of keys minus one. *)
Theorem spikewrap_step_lookup_sound data step w w' v key :
  spikewrap.utils.get_dict_value_from_step_num data step w = (Ok (v, key), w') ->
  In (key, v) data /\
  (step <> "last" -> split_head key = step) /\
  (step = "last" -> exists m, split_head key = py_str m /\ S m = length data).
Proof.
  unfold spikewrap.utils.get_dict_value_from_step_num, bind, lift.
  destruct (String.eqb step "last") eqn:Elast.
  - apply String.eqb_eq in Elast as ->.
    destruct (spikewrap.utils.get_keys_first_char_as_int data) as [nums|]; [|done].
    simpl. destruct (np_max nums) as [m|]; [|done]. simpl.
    rewrite py_int_str. simpl.
    destruct (Z.eqb (Z.of_nat m) (Z.of_nat (length (keys data)) - 1)) eqn:Em; [|done].
    apply Z.eqb_eq in Em. unfold keys in Em. rewrite length_map in Em.
    destruct (List.filter _ (keys data)) as [|pp_key rest] eqn:Ef.
    + by destruct (Nat.eqb _ _).
    + assert (split_head pp_key = py_str m) as Hkey.
      { apply (filter_in_split_head _ _ (keys data)). rewrite Ef. by left. }
      destruct (Nat.eqb _ _); simpl; unfold bind, ret, emit, lift; simpl;
        (destruct (getitem data pp_key) as [x|] eqn:Eg; [|done]);
        intros [= -> -> _]; (split; [by apply getitem_in|]);
        (split; [done|]); intros _; exists m; (split; [done|lia]).
  - apply String.eqb_neq in Elast.
    destruct (List.filter _ (keys data)) as [|pp_key rest] eqn:Ef.
    + by destruct (Nat.eqb _ _).
    + assert (split_head pp_key = step) as Hkey.
      { apply (filter_in_split_head _ _ (keys data)). rewrite Ef. by left. }
      destruct (Nat.eqb _ _); simpl; unfold bind, ret, emit, lift; simpl;
        (destruct (getitem data pp_key) as [x|] eqn:Eg; [|done]);
        intros [= -> -> _]; (split; [by apply getitem_in|]); split; done.
Qed.


Lemma comprehension_if_spec {A} (f : A -> result bool) l xs :
  comprehension_if f l = Ok xs ->
  forall x, In x xs <-> In x l /\ f x = Ok true.
Proof.
  revert xs. induction l as [|y l IH]; simpl; intros xs.
  - intros [= <-] x. simpl. tauto.
  - destruct (f y) as [b|] eqn:Ey; [|done]. simpl.
    destruct (comprehension_if f l) as [ys|]; [|done]. simpl.
    intros [= <-] x. specialize (IH ys eq_refl x).
    destruct b; simpl; rewrite IH; split.
    + intros [->|[? ?]]; [by split; [left|]|by split; [right|]].
    + intros [[->|?] ?]; [by left|by right].
    + intros [? ?]. by split; [right|].
    + intros [[->|?] Hx]; [congruence|done].
Qed.

Lemma first_char_selects step key :
  (let? c := first_char key in Ok (String.eqb c step)) = Ok true ->
  first_char key = Ok step.
Proof.
  destruct (first_char key) as [c|]; [|done]. simpl.
  intros [= H]. by apply String.eqb_eq in H as ->.
Qed.

(** What swc_ephys's [get_dict_value_from_step_num] returns is an entry of
    the dict, for any dict, and its key is the only one that starts with the
    character asked for; with ["last"], that character is the count of keys
    minus one. *)
Theorem swc_ephys_step_lookup_sound data step v key :
  swc_ephys.utils.get_dict_value_from_step_num data step = Ok (v, key) ->
  In (key, v) data /\
  exists c,
    first_char key = Ok c /\
    (step <> "last" -> c = step) /\
    (step = "last" -> exists m, c = py_str m /\ S m = length data) /\
    (forall key', In key' (keys data) -> first_char key' = Ok c -> key' = key).
Proof.
  unfold swc_ephys.utils.get_dict_value_from_step_num.
  assert (forall c,
    (let? select_step_pp_key :=
       comprehension_if (fun key => let? c' := first_char key in Ok (String.eqb c' c))
         (keys data) in
     if Nat.eqb (length select_step_pp_key) 1 then
       match select_step_pp_key with
       | pp_key :: _ => let? v := getitem data pp_key in Ok (v, pp_key)
       | [] => Raise IndexError
       end
     else Raise (AssertionError "pp_key must always have unique first char"))
    = Ok (v, key) ->
    In (key, v) data /\ first_char key = Ok c /\
    (forall key', In key' (keys data) -> first_char key' = Ok c -> key' = key)) as Hsel.
  { intros c.
    destruct (comprehension_if _ (keys data)) as [[|pp_key [|]]|] eqn:Ec; try done.
    simpl. destruct (getitem data pp_key) as [x|] eqn:Eg; [|done]. simpl.
    intros [= -> ->]. pose proof (comprehension_if_spec _ _ _ Ec) as Hspec.
    split; [by apply getitem_in|].
    split.
    - apply first_char_selects. apply (Hspec key). by left.
    - intros key' Hin Hc. assert (In key' [key]) as [->|[]]; [|done].
      apply Hspec. split; [done|]. rewrite Hc. simpl. by rewrite String.eqb_refl. }
  destruct (String.eqb step "last") eqn:Elast.
  - apply String.eqb_eq in Elast as ->.
    destruct (swc_ephys.utils.get_keys_first_char_as_int data) as [nums|]; [|done].
    simpl. destruct (np_max nums) as [m|]; [|done]. simpl.
    rewrite py_int_str. simpl.
    destruct (Z.eqb (Z.of_nat m) (Z.of_nat (length (keys data)) - 1)) eqn:Em; [|done].
    apply Z.eqb_eq in Em. unfold keys in Em. rewrite length_map in Em.
    simpl. intros H. apply Hsel in H as (Hin & Hc & Huniq).
    split; [done|]. exists (py_str m). repeat split; try done.
    intros _. exists m. split; [done|lia].
  - apply String.eqb_neq in Elast. simpl.
    intros H. apply Hsel in H as (Hin & Hc & Huniq).
    split; [done|]. exists step. repeat split; done.
Qed.

Lemma first_char_step_key n name :
  n < 10 -> first_char (step_key n name) = Ok (py_str n).
Proof.
  intros Hn. do 10 (destruct n as [|n]; [reflexivity|]). lia.
Qed.

Lemma swc_step_numbers_of items :
  Forall (fun item => fst (fst item) < 10) items ->
  swc_ephys.utils.get_keys_first_char_as_int (data_of items)
    = Ok (map (fun item => fst (fst item)) items).
Proof.
  unfold swc_ephys.utils.get_keys_first_char_as_int. rewrite keys_data_of.
  induction 1 as [|[[n name] v] items Hn _ IH]; simpl; [done|].
  simpl in Hn. rewrite (first_char_step_key _ _ Hn). cbn [rbind].
  rewrite py_int_str. cbn [rbind]. by rewrite IH.
Qed.

Lemma swc_select_none items k :
  Forall (fun item => fst (fst item) < 10) items ->
  ~ In k (map (fun item => fst (fst item)) items) ->
  comprehension_if (fun key => let? c := first_char key in Ok (String.eqb c (py_str k)))
    (keys (data_of items)) = Ok [].
Proof.
  rewrite keys_data_of.
  induction 1 as [|[[n name] v] items Hn _ IH]; simpl; intros Hk; [done|].
  simpl in Hn. rewrite (first_char_step_key _ _ Hn). simpl.
  rewrite IH by tauto. simpl.
  destruct (String.eqb (py_str n) (py_str k)) eqn:E; [|done].
  apply String.eqb_eq, py_str_inj in E. tauto.
Qed.

Lemma swc_select_one items k name v :
  Forall (fun item => fst (fst item) < 10) items ->
  List.NoDup (map (fun item => fst (fst item)) items) ->
  In (k, name, v) items ->
  comprehension_if (fun key => let? c := first_char key in Ok (String.eqb c (py_str k)))
    (keys (data_of items)) = Ok [step_key k name].
Proof.
  induction 1 as [|[[n name'] v'] items Hn Hall IH]; simpl; intros Hnd Hin; [done|].
  apply NoDup_cons_iff in Hnd as [Hnotin Hnd]. simpl in Hn.
  change (keys (data_of ((n, name', v') :: items)))
    with (step_key n name' :: keys (data_of items)).
  simpl. rewrite (first_char_step_key _ _ Hn). simpl.
  destruct Hin as [[= -> -> ->]|Hin].
  - rewrite String.eqb_refl. by rewrite swc_select_none.
  - rewrite IH by done. simpl.
    destruct (String.eqb (py_str n) (py_str k)) eqn:E; [|done].
    apply String.eqb_eq, py_str_inj in E. subst n. destruct Hnotin.
    apply in_map_iff. by exists (k, name, v).
Qed.

(** swc_ephys's version resolves ["last"] as long as there are at most ten
    artifacts: when the keys carry the step numbers 0 to n-1, each once and
    in any order, with n at most 10, it returns the artifact of step n-1. *)
Theorem swc_ephys_last_step_resolved_up_to_ten items :
  items <> [] ->
  length items <= 10 ->
  Permutation (map (fun item => fst (fst item)) items) (seq 0 (length items)) ->
  exists name v,
    In (length items - 1, name, v) items /\
    swc_ephys.utils.get_dict_value_from_step_num (data_of items) "last"
      = Ok (v, step_key (length items - 1) name).
Proof.
  intros Hne Hlen Hp.
  assert (0 < length items) as Hn by (destruct items; [done|simpl; lia]).
  assert (List.NoDup (map (fun item => fst (fst item)) items)) as Hnd.
  { eapply Permutation_NoDup; [symmetry; exact Hp|apply seq_NoDup]. }
  assert (Forall (fun item => fst (fst item) < 10) items) as Hsmall.
  { apply Forall_forall. intros item Hin%list_elem_of_In.
    assert (In (fst (fst item)) (seq 0 (length items))) as Hs.
    { apply (Permutation_in _ Hp), in_map_iff. by exists item. }
    apply in_seq in Hs. lia. }
  assert (In (length items - 1) (map (fun item => fst (fst item)) items)) as Hin.
  { apply (Permutation_in _ (Permutation_sym Hp)), in_seq. lia. }
  apply in_map_iff in Hin as ([[k name] v] & Hk & Hin). simpl in Hk. subst k.
  exists name, v. split; [done|].
  unfold swc_ephys.utils.get_dict_value_from_step_num. simpl.
  rewrite (swc_step_numbers_of _ Hsmall). simpl.
  rewrite (np_max_of_steps _ _ Hn Hp). simpl.
  rewrite py_int_str. simpl.
  rewrite keys_data_of, length_map.
  rewrite (proj2 (Z.eqb_eq _ _)) by lia. simpl.
  rewrite <- keys_data_of, (swc_select_one _ _ _ _ Hsmall Hnd Hin). simpl.
  by rewrite (getitem_step _ _ _ _ Hnd Hin).
Qed.

End StepKeysMore.

(** ** Datetime order, further *)

Section DatetimeMore.
Import swc_ephys.utils.

Lemma insert_by_keeps_equal_keys {A} (key : A -> Z) t x l :
  List.filter (fun y => Z.eqb (key y) t) (insert_by key x l)
    = List.filter (fun y => Z.eqb (key y) t) (x :: l).
Proof.
  induction l as [|y l IH]; [done|]. simpl insert_by.
  destruct (Z.leb (key x) (key y)) eqn:E; [done|].
  apply Z.leb_gt in E.
  change (List.filter ?f (y :: ?r)) with (if f y then y :: List.filter f r else List.filter f r).
  rewrite IH. simpl.
  destruct (Z.eqb (key x) t) eqn:Ex, (Z.eqb (key y) t) eqn:Ey; try done.
  apply Z.eqb_eq in Ex, Ey. lia.
Qed.

(** [sort_list_of_paths_by_datetime_order] is stable and idempotent: paths
    with the same creation time keep the order they had in the input, a list
    already in ascending creation time comes back as it is, and sorting twice
    is sorting once. *)
Theorem sort_list_of_paths_stable getctime l :
  (forall t,
     List.filter (fun p => Z.eqb (getctime p) t)
       (sort_list_of_paths_by_datetime_order getctime l)
     = List.filter (fun p => Z.eqb (getctime p) t) l) /\
  (ascending getctime l -> sort_list_of_paths_by_datetime_order getctime l = l) /\
  sort_list_of_paths_by_datetime_order getctime
    (sort_list_of_paths_by_datetime_order getctime l)
  = sort_list_of_paths_by_datetime_order getctime l.
Proof.
  unfold sort_list_of_paths_by_datetime_order. split; [|split].
  - intros t. induction l as [|x l IH]; [done|]. simpl sort_by.
    rewrite insert_by_keeps_equal_keys. simpl. by rewrite IH.
  - apply sort_by_fixes_ascending.
  - apply sort_by_fixes_ascending, sort_by_ascending.
Qed.

(** What [list_of_files_are_in_datetime_order] answers, for every list and
    all file times: with ["creation"] it is [True] exactly when the list is
    in ascending order of [os.path.getmtime], with ["modification"] exactly
    when it is in ascending order of [os.path.getctime]. *)
Theorem datetime_check_characterised getctime getmtime l :
  (list_of_files_are_in_datetime_order getctime getmtime l "creation" = Ok true
     <-> ascending getmtime l) /\
  (list_of_files_are_in_datetime_order getctime getmtime l "modification" = Ok true
     <-> ascending getctime l).
Proof. apply datetime_check_reads. Qed.

(** The two functions compose through the modification setting only: a list
    sorted by [sort_list_of_paths_by_datetime_order] always passes the check
    made with ["modification"] (which reads creation times), for any file
    times. *)
Theorem sorted_paths_pass_modification_check getctime getmtime l :
  list_of_files_are_in_datetime_order getctime getmtime
    (sort_list_of_paths_by_datetime_order getctime l) "modification" = Ok true.
Proof.
  apply datetime_check_reads. apply sort_by_ascending.
Qed.

(** Edge cases of the check: an argument other than ["creation"] and
    ["modification"] raises [AssertionError] whatever the list; with either
    of the two, a list of at most one path is in order. *)
Theorem datetime_check_edges getctime getmtime l arg :
  (arg ∉ ["creation"; "modification"] ->
   exists msg,
     list_of_files_are_in_datetime_order getctime getmtime l arg
       = Raise (AssertionError msg)) /\
  (arg ∈ ["creation"; "modification"] -> length l <= 1 ->
   list_of_files_are_in_datetime_order getctime getmtime l arg = Ok true).
Proof.
  unfold list_of_files_are_in_datetime_order. split.
  - intros H. rewrite bool_decide_eq_false_2 by done. by eexists.
  - intros H Hl. rewrite bool_decide_eq_true_2 by done.
    destruct l as [|x [|y l]]; [| |simpl in Hl; lia];
      simpl; rewrite ?bool_decide_eq_true_2; done.
Qed.

End DatetimeMore.

(** ** Batch dispatch, further *)

Section BatchDispatchMore.
Import spikewrap._slurm.

Variable default_slurm_options : gmap string pyval.
Variable now : string.
Variable job_id : nat.

(** [run_in_slurm] fails before it creates the log folder or submits
    anything: with [RuntimeError] when slurm is not installed, with
    [KeyError] when the options in force lack ["wait"] or ["env_name"]. The
    process state is as it was. *)
Theorem run_in_slurm_fails_before_any_effect slurm_opts func_to_run func_opts
    log_base_path w :
  (exists msg,
     run_in_slurm false default_slurm_options now job_id slurm_opts func_to_run
       func_opts log_base_path w = (Raise (RuntimeError msg), w)) /\
  (effective_slurm_opts default_slurm_options slurm_opts !! "wait" = None ->
   run_in_slurm true default_slurm_options now job_id slurm_opts func_to_run
     func_opts log_base_path w = (Raise (KeyError "wait"), w)) /\
  (effective_slurm_opts default_slurm_options slurm_opts !! "env_name" = None ->
   forall should_wait,
   effective_slurm_opts default_slurm_options slurm_opts !! "wait" = Some should_wait ->
   run_in_slurm true default_slurm_options now job_id slurm_opts func_to_run
     func_opts log_base_path w = (Raise (KeyError "env_name"), w)).
Proof.
  split; [by eexists|]. unfold run_in_slurm, effective_slurm_opts, bind, lift, dict_pop.
  split.
  - intros H. simpl. by rewrite H.
  - intros He should_wait Hw. simpl. rewrite Hw. simpl.
    rewrite lookup_delete_ne by done. by rewrite He.
Qed.

Lemma run_in_slurm_trace slurm_opts func_to_run func_opts log_base_path w
    should_wait env_name :
  effective_slurm_opts default_slurm_options slurm_opts !! "wait" = Some should_wait ->
  effective_slurm_opts default_slurm_options slurm_opts !! "env_name" = Some env_name ->
  exists msg1 msg2,
    run_in_slurm true default_slurm_options now job_id slurm_opts func_to_run func_opts
      log_base_path w =
      (Ok tt,
       World (cwd w) (disk w) (heap w)
         (trace w
          ++ [EvMkdir (log_base_path +:+ "/slurm_logs/" +:+ now);
              EvMessage msg1;
              EvExecutor (log_base_path +:+ "/slurm_logs/" +:+ now);
              EvExecutorSubmit func_to_run env_name func_opts job_id]
          ++ (if truthy (heap w) should_wait then [EvJobWait job_id] else [])
          ++ [EvMessage msg2])).
Proof.
  intros Hw He.
  unfold run_in_slurm, effective_slurm_opts in *. simpl.
  unfold bind, lift, dict_pop. rewrite Hw. simpl.
  rewrite lookup_delete_ne by done. rewrite He. simpl.
  unfold make_job_log_output_path, get_executor, send_user_start_message, message_user,
    if_, bind, emit, ret. simpl.
  destruct (truthy (heap w) should_wait); simpl; do 2 eexists; by rewrite <- !app_assoc.
Qed.

(** The caller's options override the defaults: when [slurm_opts] is a dict
    with a ["wait"] entry, that entry alone decides whether the call waits
    on the job, and the calls are made in the order: log folder, executor,
    submission, wait, message. *)
Theorem run_in_slurm_caller_wait_overrides_default opts func_to_run func_opts
    log_base_path w should_wait env_name :
  opts !! "wait" = Some should_wait ->
  (opts ∪ default_slurm_options) !! "env_name" = Some env_name ->
  exists msg1 msg2,
    run_in_slurm true default_slurm_options now job_id (inr opts) func_to_run func_opts
      log_base_path w =
      (Ok tt,
       World (cwd w) (disk w) (heap w)
         (trace w
          ++ [EvMkdir (log_base_path +:+ "/slurm_logs/" +:+ now);
              EvMessage msg1;
              EvExecutor (log_base_path +:+ "/slurm_logs/" +:+ now);
              EvExecutorSubmit func_to_run env_name func_opts job_id]
          ++ (if truthy (heap w) should_wait then [EvJobWait job_id] else [])
          ++ [EvMessage msg2])).
Proof.
  intros Hw He. apply run_in_slurm_trace; [|done].
  simpl. by apply lookup_union_Some_l.
Qed.

(** A bool given as [slurm_opts], [True] or [False], leaves the defaults in
    force: the call submits all the same, and waits as the defaults say. *)
Theorem run_in_slurm_bool_opts_use_defaults (b : bool) func_to_run func_opts
    log_base_path w should_wait env_name :
  default_slurm_options !! "wait" = Some should_wait ->
  default_slurm_options !! "env_name" = Some env_name ->
  exists msg1 msg2,
    run_in_slurm true default_slurm_options now job_id (inl b) func_to_run func_opts
      log_base_path w =
      (Ok tt,
       World (cwd w) (disk w) (heap w)
         (trace w
          ++ [EvMkdir (log_base_path +:+ "/slurm_logs/" +:+ now);
              EvMessage msg1;
              EvExecutor (log_base_path +:+ "/slurm_logs/" +:+ now);
              EvExecutorSubmit func_to_run env_name func_opts job_id]
          ++ (if truthy (heap w) should_wait then [EvJobWait job_id] else [])
          ++ [EvMessage msg2])).
Proof. intros Hw He. by apply run_in_slurm_trace. Qed.

End BatchDispatchMore.

Section BatchFlag.

Variable run_full_pipeline_slurm : pyval -> M unit.

(** The batch flag of swc_ephys's [run_full_pipeline] has three outcomes.
    [False] runs the stages, and nothing of the slurm module. A falsy value
    that is not [False] ([None], [0], the empty string, an empty dict) fails
    the assertion, and nothing is run. A truthy value hands the call to
    [slurm.run_full_pipeline_slurm] with the flag as it is, and the stages
    are not run here. *)
Theorem run_full_pipeline_by_batch_flag stages slurm_batch w :
  (slurm_batch = VBool false ->
   swc_ephys.full_pipeline.run_full_pipeline run_full_pipeline_slurm stages slurm_batch w
     = stages w) /\
  (truthy (heap w) slurm_batch = false -> slurm_batch <> VBool false ->
   swc_ephys.full_pipeline.run_full_pipeline run_full_pipeline_slurm stages slurm_batch w
     = (Raise guard_error, w)) /\
  (truthy (heap w) slurm_batch = true ->
   swc_ephys.full_pipeline.run_full_pipeline run_full_pipeline_slurm stages slurm_batch w
     = run_full_pipeline_slurm slurm_batch w).
Proof.
  unfold swc_ephys.full_pipeline.run_full_pipeline, if_. split; [|split].
  - intros ->. simpl. unfold bind, assert_, ret. simpl. by destruct (stages w) as [[|] ?].
  - intros Ht Hf. rewrite Ht.
    destruct slurm_batch as [|[]| | |]; try done.
  - by intros ->.
Qed.

End BatchFlag.

(** ** swc_ephys's [run_sorting], further *)

Section SwcEphysSortingMore.
Import swc_ephys.sort.

Variable load_data_and_recording : string -> M (Data * recording).
Variable save_all_preprocessed_data : Data -> M unit.
Variable ok : string -> bool.
Variable run_sorting_slurm : pyval -> M unit.

(** swc_ephys's [run_sorting] checks the sorter name and the singularity
    install before anything else: when either check fails the call raises
    [AssertionError] and the process state is as it was - nothing is loaded,
    saved or sorted, and the working directory is not changed. *)
Theorem swc_ephys_run_sorting_validates_first check_singularity_install data sorter
    sorter_options use_existing_preprocessed_file overwrite_existing_sorter_output
    verbose w :
  (sorter ∉ supported_sorters) \/ check_singularity_install = false ->
  exists msg,
    run_sorting load_data_and_recording save_all_preprocessed_data
      check_singularity_install ok run_sorting_slurm data sorter sorter_options
      use_existing_preprocessed_file overwrite_existing_sorter_output verbose
      (VBool false) w
    = (Raise (AssertionError msg), w).
Proof.
  intros H. unfold run_sorting, if_, bind, assert_, ret, raise. simpl.
  destruct (bool_decide (sorter ∈ supported_sorters)) eqn:E; [|by eexists].
  apply bool_decide_eq_true_1 in E.
  destruct H as [H| ->]; [done|]. by eexists.
Qed.

(** Unlike spikewrap's [validate_inputs], swc_ephys's [run_sorting] needs the
    sorter's name among the keys of a [sorter_options] dict: without it the
    call raises [KeyError] before data is loaded or saved and before the
    working directory is changed. *)
Theorem swc_ephys_run_sorting_needs_sorter_entry data sorter o options
    use_existing_preprocessed_file overwrite_existing_sorter_output verbose w :
  sorter ∈ supported_sorters ->
  heap w !! o = Some options ->
  options !! sorter = None ->
  run_sorting load_data_and_recording save_all_preprocessed_data true ok
    run_sorting_slurm data sorter
    (Some o) use_existing_preprocessed_file overwrite_existing_sorter_output verbose
    (VBool false) w
  = (Raise (KeyError sorter),
     World (cwd w) (disk w) (<[fresh (dom (heap w)) := ∅]> (heap w)) (trace w)).
Proof.
  intros Hs Ho Hk.
  unfold run_sorting, if_, bind, assert_, ret, raise, new_dict, read_dict.
  simpl. rewrite bool_decide_eq_true_2 by done. simpl.
  rewrite lookup_insert_ne by (apply not_eq_sym, fresh_heap_loc; eauto).
  rewrite Ho. by rewrite Hk.
Qed.

End SwcEphysSortingMore.

(** ** Casting the values of the preprocessing dict *)

Section CastPpSteps.
Import utils_more.
Context {E : Type}.
Implicit Types d : list (string * seq_value E).

Lemma getitem_app_skip {V} (d1 d2 : list (string * V)) key :
  ~ In key (keys d1) -> getitem (d1 ++ d2) key = getitem d2 key.
Proof.
  induction d1 as [|[k x] d1 IH]; simpl; intros H; [done|].
  destruct (String.eqb k key) eqn:Ek.
  - apply String.eqb_eq in Ek. tauto.
  - apply IH. tauto.
Qed.

Lemma setitem_app_skip {V} (d1 d2 : list (string * V)) key v :
  ~ In key (keys d1) -> setitem (d1 ++ d2) key v = d1 ++ setitem d2 key v.
Proof.
  induction d1 as [|[k x] d1 IH]; simpl; intros H; [done|].
  destruct (String.eqb k key) eqn:Ek.
  - apply String.eqb_eq in Ek. tauto.
  - f_equal. apply IH. tauto.
Qed.

Lemma keys_cast_all (func : seq_value E -> seq_value E) d :
  keys (cast_all func d) = keys d.
Proof. unfold keys, cast_all. rewrite map_map. done. Qed.

Lemma cast_loop (func : seq_value E -> seq_value E) done_ todo :
  List.NoDup (keys (done_ ++ todo)) ->
  foldl
    (fun acc key =>
       let? d := acc in
       let? v := getitem d key in
       Ok (setitem d key (func v)))
    (Ok (cast_all func done_ ++ todo)) (keys todo)
  = Ok (cast_all func (done_ ++ todo)).
Proof.
  revert done_. induction todo as [|[k v] todo IH]; intros done_ Hnd.
  - by rewrite !app_nil_r.
  - simpl.
    assert (~ In k (keys (cast_all func done_))) as Hk.
    { rewrite keys_cast_all. unfold keys in *. rewrite map_app in Hnd. simpl in Hnd.
      apply NoDup_remove_2 in Hnd. rewrite in_app_iff in Hnd. tauto. }
    rewrite getitem_app_skip by done. simpl. rewrite String.eqb_refl. simpl.
    rewrite setitem_app_skip by done. simpl. rewrite String.eqb_refl.
    replace (cast_all func done_ ++ (k, func v) :: todo)
      with (cast_all func (done_ ++ [(k, v)]) ++ todo)
      by (unfold cast_all; rewrite map_app, <- app_assoc; done).
    rewrite IH by (by rewrite <- app_assoc).
    by rewrite <- app_assoc.
Qed.

Lemma cast_pp_steps_values_maps d list_or_tuple :
  List.NoDup (keys d) ->
  list_or_tuple ∈ ["list"; "tuple"] ->
  cast_pp_steps_values d list_or_tuple =
    Ok (map (fun item =>
               (fst item,
                if String.eqb list_or_tuple "tuple"
                then PyTuple (entries (snd item))
                else PyList (entries (snd item)))) d).
Proof.
  intros Hnd Hk. unfold cast_pp_steps_values. rewrite bool_decide_eq_true_2 by done.
  pose proof (cast_loop (if String.eqb list_or_tuple "tuple" then py_tuple else py_list)
                [] d Hnd) as H.
  simpl in H. rewrite H. unfold cast_all. f_equal. apply map_ext. intros [k v]. simpl.
  by destruct (String.eqb list_or_tuple "tuple").
Qed.

(** [cast_pp_steps_values] on a dict (its keys pairwise distinct) leaves the
    keys and their order as they are and turns every value into a tuple, or
    into a list, with the same entries. *)
Theorem cast_pp_steps_values_casts_every_value d list_or_tuple :
  List.NoDup (keys d) ->
  list_or_tuple ∈ ["list"; "tuple"] ->
  cast_pp_steps_values d list_or_tuple =
    Ok (map (fun item =>
               (fst item,
                if String.eqb list_or_tuple "tuple"
                then PyTuple (entries (snd item))
                else PyList (entries (snd item)))) d).
Proof. apply cast_pp_steps_values_maps. Qed.

(** Casting to lists and back to tuples gives back a dict of tuples as it
    was (the round trip made around a yaml dump), and casting twice to the
    same kind is casting once. *)
Theorem cast_pp_steps_values_round_trip d :
  List.NoDup (keys d) ->
  (Forall (fun item => exists l, snd item = PyTuple l) d ->
   (let? as_lists := cast_pp_steps_values d "list" in
    cast_pp_steps_values as_lists "tuple") = Ok d) /\
  (forall list_or_tuple,
     list_or_tuple ∈ ["list"; "tuple"] ->
     (let? once := cast_pp_steps_values d list_or_tuple in
      cast_pp_steps_values once list_or_tuple) = cast_pp_steps_values d list_or_tuple).
Proof.
  intros Hnd.
  assert (forall (f : string * seq_value E -> string * seq_value E),
            (forall item, fst (f item) = fst item) ->
            List.NoDup (keys (map f d))) as Hkeys.
  { intros f Hf. unfold keys. rewrite map_map.
    erewrite map_ext; [exact Hnd|]. intros item. apply Hf. }
  split.
  - intros Hall.
    rewrite cast_pp_steps_values_maps by (done || set_solver). simpl.
    rewrite cast_pp_steps_values_maps; [|by apply Hkeys|set_solver].
    simpl. rewrite map_map. f_equal. rewrite <- (map_id d) at 2.
    apply map_ext_in. intros [k v] Hin. simpl.
    rewrite Forall_forall in Hall. apply list_elem_of_In in Hin.
    destruct (Hall _ Hin) as [l Hl]. simpl in Hl. by subst v.
  - intros kind Hk.
    rewrite cast_pp_steps_values_maps by done. simpl.
    rewrite cast_pp_steps_values_maps; [|by apply Hkeys|done].
    rewrite map_map. f_equal. apply map_ext. intros [k v]. simpl.
    by destruct (String.eqb kind "tuple").
Qed.

End CastPpSteps.

(** ** Names of sorter images *)

Section ImageNames.
Import utils_more.

Lemma append_cons c s t : String c s +:+ t = String c (s +:+ t).
Proof. reflexivity. Qed.

Lemma append_assoc s t u : (s +:+ t) +:+ u = s +:+ (t +:+ u).
Proof. induction s as [|c s IH]; [done|]. by rewrite !append_cons, IH. Qed.

Lemma length_append s t : String.length (s +:+ t) = String.length s + String.length t.
Proof. induction s as [|c s IH]; [done|]. rewrite append_cons. simpl. by rewrite IH. Qed.

(** Strings that agree after the same suffix is added are equal. *)
Lemma append_inv_tail s1 s2 t : s1 +:+ t = s2 +:+ t -> s1 = s2.
Proof.
  revert s2. induction s1 as [|c s1 IH]; intros [|c' s2] H.
  - done.
  - apply (f_equal String.length) in H. rewrite !length_append in H. simpl in H. lia.
  - apply (f_equal String.length) in H. rewrite !length_append in H. simpl in H. lia.
  - rewrite !append_cons in H. injection H as -> H. f_equal. by apply IH.
Qed.

Lemma prefix_append needle s t :
  String.prefix needle s = true -> String.prefix needle (s +:+ t) = true.
Proof.
  revert needle. induction s as [|c s IH]; intros [|a needle] H; try done.
  - by destruct t.
  - rewrite append_cons. simpl in *.
    destruct (Ascii.ascii_dec a c); [by apply IH|done].
Qed.

Lemma str_contains_append needle s t :
  str_contains needle s = true -> str_contains needle (s +:+ t) = true.
Proof.
  induction s as [|c s IH].
  - change (str_contains needle "") with (String.prefix needle "" || false).
    rewrite orb_false_r. intros H.
    apply (prefix_append _ _ t) in H. change ("" +:+ t) with t in *.
    destruct t; cbn [str_contains]; by rewrite H.
  - rewrite append_cons. cbn [str_contains].
    intros [H|H]%orb_true_iff; apply orb_true_iff.
    + left. apply (prefix_append _ _ t) in H. by rewrite append_cons in H.
    + right. by apply IH.
Qed.

Lemma prefix_spec needle s :
  String.prefix needle s = true <-> exists post, s = needle +:+ post.
Proof.
  revert needle. induction s as [|c s IH]; intros [|a needle]; simpl.
  - split; [by exists ""|done].
  - split; [done|]. intros [post H]. by rewrite append_cons in H.
  - split; [by exists (String c s)|done].
  - destruct (Ascii.ascii_dec a c) as [->|Hne].
    + rewrite IH. split; intros [post H]; exists post.
      * by rewrite append_cons, H.
      * rewrite append_cons in H. by injection H.
    + split; [done|]. intros [post H]. rewrite append_cons in H. by injection H.
Qed.

(** [str_contains] is Python's [in] on strings: the needle occurs somewhere
    in the haystack. *)
Lemma str_contains_spec needle s :
  str_contains needle s = true <-> exists pre post, s = pre +:+ needle +:+ post.
Proof.
  induction s as [|c s IH].
  - change (str_contains needle "") with (String.prefix needle "" || false).
    rewrite orb_false_r, prefix_spec. split.
    + intros [post H]. by exists "", post.
    + intros (pre & post & H). destruct pre as [|c pre]; [by exists post|].
      by rewrite append_cons in H.
  - cbn [str_contains]. rewrite orb_true_iff, prefix_spec, IH. split.
    + intros [[post H]|(pre & post & H)].
      * by exists "", post.
      * exists (String c pre), post. by rewrite append_cons, H.
    + intros (pre & post & H). destruct pre as [|c' pre].
      * left. by exists post.
      * right. rewrite append_cons in H. injection H as -> H. by exists pre, post.
Qed.

(** Two sorters get the same image name only when they are the same sorter,
    or the two spellings of spyking circus, which share one image. *)
Theorem sorter_image_names_collide_only_for_spyking_circus s1 s2 :
  get_sorter_image_name s1 = get_sorter_image_name s2 ->
  s1 = s2 \/
  (s1 = "spykingcircus" /\ s2 = "spyking-circus") \/
  (s1 = "spyking-circus" /\ s2 = "spykingcircus").
Proof.
  assert (forall s s', str_contains "kilosort" s = true ->
            str_contains "kilosort" s' = false ->
            s +:+ "-compiled-base.sif" <>
            (if String.eqb s' "spykingcircus" then "spyking-circus" else s') +:+ "-base.sif")
    as Hmixed.
  { intros s s' Hk Hk' H.
    change "-compiled-base.sif" with ("-compiled" +:+ "-base.sif") in H.
    rewrite <- append_assoc in H. apply append_inv_tail in H.
    apply (str_contains_append _ _ "-compiled") in Hk. rewrite H in Hk.
    destruct (String.eqb s' "spykingcircus"); [discriminate Hk|congruence]. }
  unfold get_sorter_image_name.
  destruct (str_contains "kilosort" s1) eqn:K1, (str_contains "kilosort" s2) eqn:K2.
  - intros H. left. by apply append_inv_tail in H.
  - intros H. by apply Hmixed in H.
  - intros H. symmetry in H. by apply Hmixed in H.
  - intros H. apply append_inv_tail in H.
    destruct (String.eqb s1 "spykingcircus") eqn:E1, (String.eqb s2 "spykingcircus") eqn:E2;
      rewrite ?String.eqb_eq in *; subst; auto.
Qed.

End ImageNames.

(** ** The properties above at concrete inputs *)

Section Instances.
Import spikewrap.sort examples examples_more utils_more.

Lemma sorting_loop_keeps_manifest_invariant_witness :
  manifest_has_artifact (disk w_sorted) /\
  manifest_has_artifact
    (disk (snd (run_sorting_on_all_runs ok_r1 sd0 "overwrite" w_sorted))).
Proof.
  assert (manifest_has_artifact (disk w_sorted)) as H.
  { intros p f Hp _. unfold w_sorted in Hp. simpl in Hp.
    apply lookup_singleton_Some in Hp as [_ <-].
    apply elem_of_union. left. apply elem_of_union. right.
    by apply elem_of_singleton. }
  split; [exact H|].
  exact (sorting_loop_keeps_manifest_invariant ok_r1 sd0 "overwrite" w_sorted H).
Defined.

Lemma overwrite_leaves_only_fresh_output_witness :
  disk (snd (run_sorting_on_all_runs (always true) sd0 "overwrite" w0))
    !! sorting_path (Some "r1") = Some {[sorting_yaml; sorter_output]}.
Proof.
  refine (overwrite_leaves_only_fresh_output (always true) sd0 w0 _ _ (Some "r1") _).
  - vm_compute. reflexivity.
  - apply elem_of_cons. by left.
Defined.

Lemma fail_if_exists_completed_witness :
  List.NoDup (map sorting_path [Some "r1"; Some "r2"]).
Proof.
  refine (proj1 (proj2 (fail_if_exists_completed_sorts_each_run_once (always true) sd0
                          w_empty
                          (snd (run_sorting_on_all_runs (always true) sd0
                                  "fail_if_exists" w_empty)) _))).
  vm_compute. reflexivity.
Defined.

Lemma sorting_loop_exceptions_witness :
  ("overwrite" = "fail_if_exists" /\
   exists msg, SpikeSortingError (sorting_path (Some "r1")) = RuntimeError msg) \/
  (exists run, run ∈ [Some "r1"; Some "r2"] /\
     SpikeSortingError (sorting_path (Some "r1")) = SpikeSortingError (sorting_path run) /\
     always false (sorting_path run) = false).
Proof.
  apply (sorting_loop_exceptions (always false) sd0 "overwrite" w0
           (SpikeSortingError (sorting_path (Some "r1")))).
  vm_compute. reflexivity.
Defined.

Lemma spikewrap_last_step_resolved_witness :
  exists name v,
    In (10, name, v) eleven_items /\
    spikewrap.utils.get_dict_value_from_step_num (data_of eleven_items) "last" w_empty
      = (Ok (v, step_key 10 name), w_empty).
Proof.
  refine (spikewrap_last_step_resolved eleven_items w_empty _ _).
  - discriminate.
  - apply Permutation_refl.
Defined.

Lemma swc_ephys_last_step_resolved_witness :
  exists name v,
    In (2, name, v) three_items /\
    swc_ephys.utils.get_dict_value_from_step_num (data_of three_items) "last"
      = Ok (v, step_key 2 name).
Proof.
  refine (swc_ephys_last_step_resolved_up_to_ten three_items _ _ _).
  - discriminate.
  - simpl. lia.
  - apply Permutation_refl.
Defined.

Lemma spikewrap_step_number_resolved_witness :
  spikewrap.utils.get_dict_value_from_step_num (data_of eleven_items) (py_str 10) w_empty
    = (Ok (10, step_key 10 "raw-a-b-c-d-e-f-g-h-i-j"), w_empty).
Proof.
  refine (spikewrap_step_number_resolved eleven_items 10 "raw-a-b-c-d-e-f-g-h-i-j" 10
            w_empty _ _).
  - exact (seq_NoDup 11 0).
  - simpl. tauto.
Defined.

Lemma step_lookup_failures_witness :
  spikewrap.utils.get_dict_value_from_step_num (data_of three_items) (py_str 7) w_empty
    = (Raise IndexError, World "/home/user" ∅ ∅ ([] ++ [EvBreakpoint])).
Proof.
  refine (proj1 (step_lookup_failures three_items 7 w_empty _)).
  simpl. intros [H|[H|[H|[]]]]; discriminate H.
Defined.

Lemma spikewrap_step_lookup_sound_witness :
  In ("2-raw-a-b", 2) duplicate_and_gap.
Proof.
  refine (proj1 (spikewrap_step_lookup_sound duplicate_and_gap "last" w_empty w_empty 2
                   "2-raw-a-b" _)).
  vm_compute. reflexivity.
Defined.

Lemma swc_ephys_step_lookup_sound_witness :
  In ("2-raw-a-b", 2) duplicate_and_gap.
Proof.
  refine (proj1 (swc_ephys_step_lookup_sound duplicate_and_gap "last" 2 "2-raw-a-b" _)).
  vm_compute. reflexivity.
Defined.

Lemma run_in_slurm_caller_wait_witness :
  exists msg1 msg2,
    spikewrap._slurm.run_in_slurm true slurm_defaults "2023-07-01_12-00-00" 7
      (inr {[ "wait" := VBool true ]}) "run_sorting" ∅ "/data/logs" w_empty =
      (Ok tt,
       World "/home/user" ∅ ∅
         ([] ++ [EvMkdir ("/data/logs" +:+ "/slurm_logs/" +:+ "2023-07-01_12-00-00");
                 EvMessage msg1;
                 EvExecutor ("/data/logs" +:+ "/slurm_logs/" +:+ "2023-07-01_12-00-00");
                 EvExecutorSubmit "run_sorting" (VStr "spikewrap") ∅ 7]
          ++ (if truthy ∅ (VBool true) then [EvJobWait 7] else [])
          ++ [EvMessage msg2])).
Proof.
  refine (run_in_slurm_caller_wait_overrides_default slurm_defaults
            "2023-07-01_12-00-00" 7 {[ "wait" := VBool true ]} "run_sorting" ∅
            "/data/logs" w_empty (VBool true) (VStr "spikewrap") _ _).
  - vm_compute. reflexivity.
  - vm_compute. reflexivity.
Defined.



Lemma run_full_pipeline_by_batch_flag_witness :
  truthy (heap w_empty_dict) (VRef 0) = false /\
  swc_ephys.full_pipeline.run_full_pipeline missing_slurm_function (ret tt) (VRef 0)
    w_empty_dict
  = (Raise guard_error, w_empty_dict).
Proof.
  split; [reflexivity|].
  by apply (proj1 (proj2 (run_full_pipeline_by_batch_flag missing_slurm_function (ret tt)
                            (VRef 0) w_empty_dict))).
Defined.

Lemma swc_ephys_run_sorting_validates_first_witness :
  exists msg,
    swc_ephys.sort.run_sorting load0 save0 true (always true) missing_slurm_function
      (inl data0) "mountainsort5" None false true true (VBool false) w_empty
    = (Raise (AssertionError msg), w_empty).
Proof.
  apply (swc_ephys_run_sorting_validates_first load0 save0 (always true)
           missing_slurm_function true
           (inl data0) "mountainsort5" None false true true w_empty).
  left. apply (bool_decide_eq_false_1 _). vm_compute. reflexivity.
Defined.

Lemma swc_ephys_run_sorting_needs_sorter_entry_witness :
  swc_ephys.sort.run_sorting load0 save0 true (always true) missing_slurm_function
    (inl data0) "kilosort3"
    (Some 0) false true true (VBool false) w_options
  = (Raise (KeyError "kilosort3"),
     World "/home/user" ∅ (<[fresh (dom (heap w_options)) := ∅]> (heap w_options)) []).
Proof.
  refine (swc_ephys_run_sorting_needs_sorter_entry load0 save0 (always true)
            missing_slurm_function (inl data0)
            "kilosort3" 0 {[ "kilosort2_5" := VRef 1 ]} false true true w_options _ _ _).
  - apply (bool_decide_unpack _). vm_compute. reflexivity.
  - vm_compute. reflexivity.
  - vm_compute. reflexivity.
Defined.

Lemma pp_steps_keys_distinct : List.NoDup (keys pp_steps).
Proof.
  repeat constructor; simpl; intros H; repeat destruct H as [H|H]; discriminate || done.
Defined.

Lemma cast_pp_steps_values_witness :
  cast_pp_steps_values pp_steps "tuple" = Ok pp_steps_tuples.
Proof.
  refine (cast_pp_steps_values_casts_every_value pp_steps "tuple"
            pp_steps_keys_distinct _).
  apply (bool_decide_unpack _). vm_compute. reflexivity.
Defined.

Lemma cast_pp_steps_values_round_trip_witness :
  (let? as_lists := cast_pp_steps_values pp_steps_tuples "list" in
   cast_pp_steps_values as_lists "tuple") = Ok pp_steps_tuples.
Proof.
  refine (proj1 (cast_pp_steps_values_round_trip pp_steps_tuples pp_steps_keys_distinct)
            _).
  repeat constructor; by eexists.
Defined.

Lemma sorter_image_names_witness :
  "spykingcircus" = "spyking-circus" \/
  ("spykingcircus" = "spykingcircus" /\ "spyking-circus" = "spyking-circus") \/
  ("spykingcircus" = "spyking-circus" /\ "spyking-circus" = "spykingcircus").
Proof.
  apply (sorter_image_names_collide_only_for_spyking_circus "spykingcircus"
           "spyking-circus").
  vm_compute. reflexivity.
Defined.

Lemma run_sorting_rejects_unsupported_sorter_witness :
  exists msg,
    run_sorting (always true)
      {| base_path := "/data"; sorter := "kilosort4"; sorting_run_names := [];
         get_output_run_name := fun _ => ""; get_sorting_path := sorting_path |}
      None "overwrite" true false w_empty =
      (Raise (AssertionError msg),
       World "/home/user" ∅ ∅ ([] ++ [EvStartLogging])).
Proof.
  refine (run_sorting_rejects_unsupported_sorter (always true)
            {| base_path := "/data"; sorter := "kilosort4"; sorting_run_names := [];
               get_output_run_name := fun _ => ""; get_sorting_path := sorting_path |}
            None "overwrite" true w_empty _).
  apply (bool_decide_eq_false_1 _). vm_compute. reflexivity.
Defined.

End Instances.
